(** * CreditAnalyzer: the confidential credit-scoring contract and the
    client-side transaction pipeline, embedded and verified.

  The development follows the layers of the repository:

  - [CreditAnalyzer] embeds [contracts/CreditAnalyzer.sol].  Encrypted
    values are represented by the plaintext they hold, and every FHE
    operation by its effect on plaintexts: [euint8] and [euint32] are
    unsigned machine integers, so [FHE.add], [FHE.sub] and [FHE.mul] wrap
    around modulo [2^8] and [2^32].  Contract storage is a record, the two
    Solidity mappings are finite maps read with the all-zero default, and
    every external function returns either the new storage with the
    emitted log, or the revert reason.  The access-control list of the
    FHE library is an oracle of the call context: it tells for each handle
    argument whether the contract may use it, and a grant on a handle the
    contract may not use reverts.

  - [TransactionPipeline] embeds the transaction utilities
    ([TransactionTracker], [GasEstimator], [TransactionExecutor]).  The
    provider and the contract object are oracles that answer each call of
    an attempt; the progress callback and the retry delay are recorded in
    a trace.

  - [FheClient] embeds the client-side encryption helpers (initialisation
    with its stand-in instance, rendering as bytes32), with the module
    variable that holds the instance passed explicitly.

  - [App] embeds the validation that the page runs on the form before
    anything is encrypted, with the numbers [parseInt] reads as doubles,
    and the conditions under which the page offers the form and the two
    action buttons. *)

From Stdlib Require Import ZArith Lia Bool String Ascii List.
From stdpp Require Import gmap strings list fin_maps.
Import ListNotations.

Local Open Scope Z_scope.

(* ===================================================================== *)
(** * Part I.  The FHE capability, on plaintexts                          *)
(* ===================================================================== *)

Module FHE.

(** The contract imports [FHE], [euint32], [euint8] and [ebool] from the
    fhevm Solidity library.  The operations below are the ones the
    contract calls, with the library's semantics: the encrypted integers
    are unsigned, arithmetic is modular, and a handle that was never
    written behaves as an encryption of zero. *)

(** An [euintN] holds an unsigned [N]-bit integer. *)
Abbreviation euint8 := Z (only parsing).
Abbreviation euint32 := Z (only parsing).
Abbreviation ebool := bool (only parsing).

Definition wrap (bits : Z) (x : Z) : Z := x mod 2 ^ bits.

Definition asEuint8 (v : Z) : euint8 := wrap 8 v.
Definition asEuint32 (v : Z) : euint32 := wrap 32 v.

(** Arithmetic is unchecked: results are reduced modulo the width. *)
Definition add8 (a b : euint8) : euint8 := wrap 8 (a + b).
Definition sub8 (a b : euint8) : euint8 := wrap 8 (a - b).
Definition mul32 (a b : euint32) : euint32 := wrap 32 (a * b).

Definition gt (a b : Z) : ebool := b <? a.
Definition lt (a b : Z) : ebool := a <? b.
Definition ge (a b : Z) : ebool := b <=? a.
Definition eq (a b : Z) : ebool := a =? b.

Definition select {A : Type} (c : ebool) (a b : A) : A := if c then a else b.

(** What the access-control list is asked to remember. *)
Inductive Ciphertext : Type :=
| Ct8 (v : euint8)
| Ct32 (v : euint32)
| CtBool (b : ebool).

End FHE.

(* ===================================================================== *)
(** * Part II.  contracts/CreditAnalyzer.sol                              *)
(* ===================================================================== *)

Module CreditAnalyzer.
Import FHE.

Abbreviation address := N (only parsing).

(** ** Outcome of an external call *)

Inductive Result (A : Type) : Type :=
| Ok (a : A)
| Revert (reason : string)
| Panic (code : Z).
Arguments Ok {A} a.
Arguments Revert {A} reason.
Arguments Panic {A} code.

#[global] Instance Result_ret : MRet Result := fun _ a => Ok a.
#[global] Instance Result_bind : MBind Result := fun _ _ f m =>
  match m with
  | Ok a => f a
  | Revert r => Revert r
  | Panic c => Panic c
  end.

Definition require (cond : bool) (reason : string) : Result unit :=
  if cond then Ok tt else Revert reason.

(** ** Constants *)

Definition EXCELLENT_SCORE : Z := 5.
Definition GOOD_SCORE : Z := 4.
Definition FAIR_SCORE : Z := 3.
Definition POOR_SCORE : Z := 2.
Definition BAD_SCORE : Z := 1.

Definition UINT256_MAX : Z := 2 ^ 256 - 1.

(** ** Storage *)

Record CreditData : Type := mkCreditData {
  encryptedIncome : euint32;
  encryptedDebt : euint32;
  encryptedAge : euint8;
  encryptedCreditHistory : euint8;
  encryptedPaymentHistory : euint8;
  hasSubmitted : bool;
  submissionTime : Z
}.

Record CreditEvaluation : Type := mkCreditEvaluation {
  encryptedScore : euint8;
  isEvaluated : bool;
  evaluationTime : Z;
  isApproved : ebool
}.

Record Storage : Type := mkStorage {
  owner : address;
  totalEvaluations : Z;
  creditSubmissions : gmap N CreditData;
  creditEvaluations : gmap N CreditEvaluation
}.

(** A Solidity mapping answers every key; unwritten slots read as zero. *)
Definition zeroCreditData : CreditData := mkCreditData 0 0 0 0 0 false 0.
Definition zeroCreditEvaluation : CreditEvaluation :=
  mkCreditEvaluation 0 false 0 false.

Definition submissionOf (st : Storage) (user : address) : CreditData :=
  default zeroCreditData (creditSubmissions st !! user).
Definition evaluationOf (st : Storage) (user : address) : CreditEvaluation :=
  default zeroCreditEvaluation (creditEvaluations st !! user).

(** ** Call context and log *)

(** The five handle arguments of [submitCreditData]. *)
Inductive Argument : Type :=
| ArgIncome | ArgDebt | ArgAge | ArgCreditHistory | ArgPaymentHistory.

(** Besides [msg.sender] and [block.timestamp], the context of a call tells
    for each handle argument of the call whether the access-control list
    lets the contract use that handle at that moment.  The contract never
    asks the list itself, but [FHE.allowThis] and [FHE.allow] are refused by
    the list (custom error SenderNotAllowed) on a handle the contract may
    not use.  Handles the contract reads from its own storage or computes
    during the call are always usable: the former were granted by
    [FHE.allowThis] when stored, the latter are allowed for the length of
    the transaction. *)
Record Msg : Type := mkCall {
  sender : address;
  timestamp : Z;
  contractMayUse : Argument -> bool
}.

(** A call made while the contract may use every handle it is given. *)
Abbreviation mkMsg who time := (mkCall who time (fun _ => true)).

Inductive Log : Type :=
| CreditDataSubmitted (user : address) (time : Z)
| CreditEvaluated (user : address) (time : Z)
| LoanApprovalRequested (user : address) (time : Z)
| AllowThis (c : Ciphertext)
| Allow (c : Ciphertext) (who : address).

(** ** Constructor *)

Definition constructor (deployer : address) : Storage :=
  mkStorage deployer 0 ∅ ∅.

(** ** Scoring rubric (internal functions) *)

Definition _calculateBaseScore (data : CreditData) : euint8 :=
  asEuint8 FAIR_SCORE.

Definition _applyAgeBonus (score : euint8) (age : euint8) : euint8 :=
  let ageBonus := gt age (asEuint8 25) in
  let score := select ageBonus (add8 score (asEuint8 1)) score in
  let matureAgeBonus := gt age (asEuint8 40) in
  select matureAgeBonus (add8 score (asEuint8 1)) score.

Definition _applyCreditHistoryBonus (score : euint8) (creditHistory : euint8)
  : euint8 :=
  let historyBonus := gt creditHistory (asEuint8 5) in
  let score := select historyBonus (add8 score (asEuint8 1)) score in
  let longHistoryBonus := gt creditHistory (asEuint8 10) in
  select longHistoryBonus (add8 score (asEuint8 1)) score.

Definition _applyPaymentHistoryBonus (score : euint8) (paymentHistory : euint8)
  : euint8 :=
  let paymentBonus := gt paymentHistory (asEuint8 7) in
  let score := select paymentBonus (add8 score (asEuint8 1)) score in
  let perfectPayment := eq paymentHistory (asEuint8 10) in
  select perfectPayment (add8 score (asEuint8 1)) score.

Definition _applyDebtPenalty (score : euint8) (debt income : euint32)
  : euint8 :=
  let highDebt := gt debt (asEuint32 20000) in
  let score := select highDebt (sub8 score (asEuint8 1)) score in
  let veryHighDebt := gt debt (asEuint32 50000) in
  let score := select veryHighDebt (sub8 score (asEuint8 1)) score in
  let debtExceedsIncome := gt debt income in
  let score := select debtExceedsIncome (sub8 score (asEuint8 2)) score in
  let doubleIncome := mul32 income (asEuint32 2) in
  let debtExceedsDoubleIncome := gt debt doubleIncome in
  select debtExceedsDoubleIncome (sub8 score (asEuint8 1)) score.

Definition _applyIncomeBonus (score : euint8) (income : euint32) : euint8 :=
  let incomeBonus := gt income (asEuint32 5000) in
  let score := select incomeBonus (add8 score (asEuint8 1)) score in
  let highIncomeBonus := gt income (asEuint32 10000) in
  select highIncomeBonus (add8 score (asEuint8 1)) score.

Definition _enforceScoreLimits (score : euint8) : euint8 :=
  let scoreTooLow := lt score (asEuint8 1) in
  let score := select scoreTooLow (asEuint8 1) score in
  let scoreTooHigh := gt score (asEuint8 5) in
  select scoreTooHigh (asEuint8 5) score.

(** The accumulator of [evaluateCreditScore] just before
    [_enforceScoreLimits] is applied. *)
Definition runningScore (data : CreditData) : euint8 :=
  let score := _calculateBaseScore data in
  let score := _applyAgeBonus score (encryptedAge data) in
  let score := _applyCreditHistoryBonus score (encryptedCreditHistory data) in
  let score := _applyPaymentHistoryBonus score (encryptedPaymentHistory data) in
  let score := _applyDebtPenalty score (encryptedDebt data) (encryptedIncome data) in
  _applyIncomeBonus score (encryptedIncome data).

(** The score and the approval flag that [evaluateCreditScore] stores. *)
Definition scoreAndApproval (data : CreditData) : euint8 * ebool :=
  let score := _enforceScoreLimits (runningScore data) in
  let approved := ge score (asEuint8 FAIR_SCORE) in
  (score, approved).

(** ** External functions *)

(** [FHE.allowThis] and [FHE.allow] on a handle supplied by the caller as
    argument [arg]. *)
Definition allowThisSupplied (msg : Msg) (arg : Argument) (c : Ciphertext)
  : Result Log :=
  _ ← require (contractMayUse msg arg) "SenderNotAllowed";
  Ok (AllowThis c).

Definition allowSupplied (msg : Msg) (arg : Argument) (c : Ciphertext)
    (who : address) : Result Log :=
  _ ← require (contractMayUse msg arg) "SenderNotAllowed";
  Ok (Allow c who).

Definition _grantDataAccessPermissions (msg : Msg)
    (income debt : euint32) (age creditHistory paymentHistory : euint8)
  : Result (list Log) :=
  g1 ← allowThisSupplied msg ArgIncome (Ct32 income);
  g2 ← allowThisSupplied msg ArgDebt (Ct32 debt);
  g3 ← allowThisSupplied msg ArgAge (Ct8 age);
  g4 ← allowThisSupplied msg ArgCreditHistory (Ct8 creditHistory);
  g5 ← allowThisSupplied msg ArgPaymentHistory (Ct8 paymentHistory);
  g6 ← allowSupplied msg ArgIncome (Ct32 income) (sender msg);
  g7 ← allowSupplied msg ArgDebt (Ct32 debt) (sender msg);
  g8 ← allowSupplied msg ArgAge (Ct8 age) (sender msg);
  g9 ← allowSupplied msg ArgCreditHistory (Ct8 creditHistory) (sender msg);
  g10 ← allowSupplied msg ArgPaymentHistory (Ct8 paymentHistory) (sender msg);
  Ok [g1; g2; g3; g4; g5; g6; g7; g8; g9; g10].

Definition submitCreditData (msg : Msg)
    (_encryptedIncome _encryptedDebt : euint32)
    (_encryptedAge _encryptedCreditHistory _encryptedPaymentHistory : euint8)
    (st : Storage) : Result (Storage * list Log) :=
  _ ← require (negb (hasSubmitted (submissionOf st (sender msg))))
              "Data already submitted";
  let record := mkCreditData _encryptedIncome _encryptedDebt _encryptedAge
                  _encryptedCreditHistory _encryptedPaymentHistory
                  true (timestamp msg) in
  let st' := mkStorage (owner st) (totalEvaluations st)
               (<[sender msg := record]> (creditSubmissions st))
               (creditEvaluations st) in
  grants ← _grantDataAccessPermissions msg _encryptedIncome _encryptedDebt
             _encryptedAge _encryptedCreditHistory _encryptedPaymentHistory;
  Ok (st', grants ++ [CreditDataSubmitted (sender msg) (timestamp msg)]).

(** The modifier [hasSubmittedData] reads the slot of [msg.sender]. *)
Definition hasSubmittedData (msg : Msg) (st : Storage) : Result unit :=
  require (hasSubmitted (submissionOf st (sender msg)))
          "No credit data submitted".

Definition evaluateCreditScore (msg : Msg) (user : address) (st : Storage)
  : Result (Storage * list Log) :=
  _ ← hasSubmittedData msg st;
  _ ← require ((sender msg =? user)%N || (sender msg =? owner st)%N)
              "Not authorized to evaluate";
  _ ← require (negb (isEvaluated (evaluationOf st user))) "Already evaluated";
  let data := submissionOf st user in
  let '(score, approved) := scoreAndApproval data in
  let evaluation := mkCreditEvaluation score true (timestamp msg) approved in
  (* totalEvaluations++ is checked arithmetic *)
  if UINT256_MAX <=? totalEvaluations st then Panic 17
  else
    let st' := mkStorage (owner st) (totalEvaluations st + 1)
                 (creditSubmissions st)
                 (<[user := evaluation]> (creditEvaluations st)) in
    (* the contract may use what it has just computed *)
    Ok (st',
        [ AllowThis (Ct8 score); AllowThis (CtBool approved);
          Allow (Ct8 score) user; Allow (CtBool approved) user;
          CreditEvaluated user (timestamp msg) ]).

Definition requestLoanApproval (msg : Msg) (st : Storage)
  : Result (Storage * list Log) :=
  _ ← hasSubmittedData msg st;
  _ ← require (isEvaluated (evaluationOf st (sender msg)))
              "Credit not evaluated yet";
  Ok (st, [LoanApprovalRequested (sender msg) (timestamp msg)]).

(** ** Views *)

Definition hasSubmittedCreditData (user : address) (st : Storage) : bool :=
  hasSubmitted (submissionOf st user).

Definition isCreditEvaluated (user : address) (st : Storage) : bool :=
  isEvaluated (evaluationOf st user).

Definition getEvaluationStats (st : Storage) : Z := totalEvaluations st.

Definition getEncryptedCreditScore (msg : Msg) (user : address) (st : Storage)
  : Result euint8 :=
  _ ← require ((sender msg =? user)%N || (sender msg =? owner st)%N)
              "Not authorized";
  _ ← require (isEvaluated (evaluationOf st user)) "Not evaluated";
  Ok (encryptedScore (evaluationOf st user)).

Definition getEncryptedLoanApproval (msg : Msg) (user : address) (st : Storage)
  : Result ebool :=
  _ ← require ((sender msg =? user)%N || (sender msg =? owner st)%N)
              "Not authorized";
  _ ← require (isEvaluated (evaluationOf st user)) "Not evaluated";
  Ok (isApproved (evaluationOf st user)).

(** ** Transactions and histories *)

Inductive Call : Type :=
| CallSubmitCreditData (income debt : euint32)
                       (age creditHistory paymentHistory : euint8)
| CallEvaluateCreditScore (user : address)
| CallRequestLoanApproval.

Record Tx : Type := mkTx {
  tx_msg : Msg;
  tx_call : Call
}.

Definition execute (st : Storage) (tx : Tx) : Result (Storage * list Log) :=
  match tx_call tx with
  | CallSubmitCreditData i d a c p => submitCreditData (tx_msg tx) i d a c p st
  | CallEvaluateCreditScore user => evaluateCreditScore (tx_msg tx) user st
  | CallRequestLoanApproval => requestLoanApproval (tx_msg tx) st
  end.

(** A reverted transaction leaves the storage as it was. *)
Definition applyTx (st : Storage) (tx : Tx) : Storage :=
  match execute st tx with
  | Ok (st', _) => st'
  | _ => st
  end.

Definition run (st : Storage) (txs : list Tx) : Storage :=
  fold_left applyTx txs st.

(** Number of identities whose evaluation exists. *)
Definition evaluatedCount (st : Storage) : nat :=
  size (filter (fun kv => isEvaluated (snd kv) = true) (creditEvaluations st)).

(** Did the transaction run [evaluateCreditScore] to completion? *)
Definition isSuccessfulEvaluation (st : Storage) (tx : Tx) : bool :=
  match tx_call tx, execute st tx with
  | CallEvaluateCreditScore _, Ok _ => true
  | _, _ => false
  end.

(** The counter agrees with the evaluations that exist. *)
Definition counterMatches (st : Storage) : Prop :=
  totalEvaluations st = Z.of_nat (evaluatedCount st).

(** The contract may use the five handles of a submission. *)
Definition mayUseAll (msg : Msg) : bool :=
  contractMayUse msg ArgIncome && contractMayUse msg ArgDebt
  && contractMayUse msg ArgAge && contractMayUse msg ArgCreditHistory
  && contractMayUse msg ArgPaymentHistory.

(** The grants logged by a submission that goes through. *)
Definition dataAccessGrants (who : address)
    (income debt age creditHistory paymentHistory : Z) : list Log :=
  [ AllowThis (Ct32 income); AllowThis (Ct32 debt); AllowThis (Ct8 age);
    AllowThis (Ct8 creditHistory); AllowThis (Ct8 paymentHistory);
    Allow (Ct32 income) who; Allow (Ct32 debt) who;
    Allow (Ct8 age) who; Allow (Ct8 creditHistory) who;
    Allow (Ct8 paymentHistory) who ].

(** The error with which the access-control list refuses. *)
Definition SenderNotAllowed : string := "SenderNotAllowed".

(** The spec's names for the revert reasons. *)
Definition AlreadySubmitted : string := "Data already submitted".
Definition NotSubmitted : string := "No credit data submitted".
Definition AlreadyEvaluated : string := "Already evaluated".
Definition NotEvaluated : string := "Credit not evaluated yet".
Definition NotAuthorized : string := "Not authorized".

End CreditAnalyzer.

(* ===================================================================== *)
(** * Part III.  The transaction utilities (tracker, estimator, executor) *)
(* ===================================================================== *)

Module TransactionPipeline.

(** ** JavaScript values the code inspects *)

(** A thrown value: the executor reads [error.code] and [error.message]. *)
Record JsError : Type := mkError {
  err_code : option Z;
  err_message : option string
}.

(** [haystack.includes(needle)] *)
Fixpoint includes (needle haystack : string) : bool :=
  String.prefix needle haystack ||
  match haystack with
  | EmptyString => false
  | String _ rest => includes needle rest
  end.

(** [message?.includes(needle)] used as a condition. *)
Definition messageIncludes (e : JsError) (needle : string) : bool :=
  match err_message e with
  | Some m => includes needle m
  | None => false
  end.

Definition codeIs (e : JsError) (c : Z) : bool :=
  match err_code e with
  | Some c' => c' =? c
  | None => false
  end.

(** Truthiness of a possibly-null bigint, and [a || b] on them. *)
Definition truthy (v : option Z) : bool :=
  match v with
  | Some n => negb (n =? 0)
  | None => false
  end.

Definition orElse (v : option Z) (d : Z) : Z :=
  match v with
  | Some n => if n =? 0 then d else n
  | None => d
  end.

Definition orUndefined (v : option Z) : option Z :=
  if truthy v then v else None.

Definition gwei (n : Z) : Z := n * 10 ^ 9.

(** ** Interfaces *)

Inductive Status : Type := pending | confirming | confirmed | failed.

(** [gasUsed] and [effectiveGasPrice] carry the number that the code
    renders with [formatUnits]. *)
Record TransactionStatus : Type := mkStatus {
  ts_hash : option string;
  ts_status : Status;
  ts_confirmations : Z;
  ts_gasUsed : option Z;
  ts_effectiveGasPrice : option Z;
  ts_blockNumber : option Z;
  ts_error : option string
}.

(** [estimatedCost] is kept in wei; the code renders it as a decimal
    string of ether. *)
Record GasEstimate : Type := mkGasEstimate {
  gasLimit : Z;
  gasPrice : Z;
  maxFeePerGas : option Z;
  maxPriorityFeePerGas : option Z;
  estimatedCost : Z
}.

Record FeeData : Type := mkFeeData {
  fee_gasPrice : option Z;
  fee_maxFeePerGas : option Z;
  fee_maxPriorityFeePerGas : option Z
}.

Record TransactionReceipt : Type := mkReceipt {
  rc_status : option Z;
  rc_blockNumber : Z;
  rc_gasUsed : Z;
  rc_gasPrice : option Z
}.

Record TxOptions : Type := mkTxOptions {
  txo_gasLimit : Z;
  txo_gasPrice : option Z;
  txo_maxFeePerGas : option Z;
  txo_maxPriorityFeePerGas : option Z
}.

(** What the provider and the contract object answer during one attempt.
    A left answer is a rejected promise. *)
Record AttemptWorld : Type := mkWorld {
  getFeeData : JsError + FeeData;
  estimateGas : JsError + Z;
  staticCall : JsError + unit;
  sendTransaction : TxOptions -> JsError + string;
  waitForTransaction : string -> Z -> JsError + option TransactionReceipt
}.

(** What an observer sees: progress callbacks and timer waits. *)
Inductive Event : Type :=
| StatusUpdate (s : TransactionStatus)
| Sleep (ms : Z).

(** ** TransactionTracker.trackTransaction *)

Definition trackTransaction (w : AttemptWorld) (txHash : string)
  : list Event * (JsError + TransactionReceipt) :=
  let initial :=
    StatusUpdate (mkStatus (Some txHash) pending 0 None None None None) in
  let caught (error : JsError) :=
    ([initial;
      StatusUpdate (mkStatus (Some txHash) failed 0 None None None
                             (err_message error))],
     inl error) in
  match waitForTransaction w txHash 1 with
  | inl error => caught error
  | inr None => caught (mkError None (Some "Transaction receipt not found"))
  | inr (Some receipt) =>
      ([initial;
        StatusUpdate
          (mkStatus (Some txHash)
             (if decide (rc_status receipt = Some 1) then confirmed else failed)
             1
             (Some (rc_gasUsed receipt))
             (orUndefined (rc_gasPrice receipt))
             (Some (rc_blockNumber receipt))
             None)],
       inr receipt)
  end.

(** ** GasEstimator.estimateContractCall *)

(** The inner try/catch: the gas figure before the buffer, or the error
    raised when the static call fails too. *)
Definition estimateOrFallback (w : AttemptWorld) : JsError + Z :=
  match estimateGas w with
  | inr gasLimit => inr gasLimit
  | inl estimationError =>
      match staticCall w with
      | inr _ => inr 300000
      | inl staticError =>
          inl (mkError None
                 (Some (String.append "Contract call would fail: "
                          (default "undefined" (err_message staticError)))))
      end
  end.

(** The value returned by the outer catch. *)
Definition defaultGasEstimate : GasEstimate :=
  let defaultGasPrice := gwei 25 in
  mkGasEstimate 400000 defaultGasPrice (Some defaultGasPrice) (Some (gwei 2))
                (10 ^ 16).

Definition estimateContractCall (w : AttemptWorld) : GasEstimate :=
  match getFeeData w with
  | inl _ => defaultGasEstimate
  | inr feeData =>
      match estimateOrFallback w with
      | inl _ => defaultGasEstimate
      | inr gasLimit =>
          let bufferedGasLimit := (gasLimit * 150) ÷ 100 in
          let gasPrice0 := orElse (fee_gasPrice feeData) 0 in
          let maxFeePerGas0 := fee_maxFeePerGas feeData in
          let maxPriorityFeePerGas := fee_maxPriorityFeePerGas feeData in
          let noPrices := (gasPrice0 =? 0) && negb (truthy maxFeePerGas0) in
          let gasPrice := if noPrices then gwei 20 else gasPrice0 in
          let maxFeePerGas1 := if noPrices then Some gasPrice else maxFeePerGas0 in
          let maxFeePerGas :=
            if negb (truthy maxFeePerGas1) && (0 <? gasPrice)
            then Some gasPrice else maxFeePerGas1 in
          let estimatedCostWei := bufferedGasLimit * orElse maxFeePerGas gasPrice in
          mkGasEstimate bufferedGasLimit gasPrice (orUndefined maxFeePerGas)
                        (orUndefined maxPriorityFeePerGas) estimatedCostWei
      end
  end.

(** ** TransactionExecutor.executeTransaction *)

Record Options : Type := mkOptions {
  opt_confirmations : option Z;
  opt_timeout : option Z;
  opt_retries : option Z
}.

Definition noOptions : Options := mkOptions None None None.

Definition txOptionsFor (gasEstimate : GasEstimate) : TxOptions :=
  if truthy (maxFeePerGas gasEstimate) && truthy (maxPriorityFeePerGas gasEstimate)
  then mkTxOptions (gasLimit gasEstimate) None
         (maxFeePerGas gasEstimate) (maxPriorityFeePerGas gasEstimate)
  else if negb (gasPrice gasEstimate =? 0)
  then mkTxOptions (gasLimit gasEstimate) (Some (gasPrice gasEstimate)) None None
  else mkTxOptions (gasLimit gasEstimate) None None None.

(** The body of the [try] block of one loop iteration, after the delay. *)
Definition runAttempt (w : AttemptWorld)
  : list Event * (JsError + TransactionReceipt) :=
  let gasEstimate := estimateContractCall w in
  let announced := StatusUpdate (mkStatus None pending 0 None None None None) in
  let txOptions := txOptionsFor gasEstimate in
  match sendTransaction w txOptions with
  | inl error => ([announced], inl error)
  | inr txHash =>
      let '(events, result) := trackTransaction w txHash in
      (announced :: events, result)
  end.

Definition isUserCancellation (error : JsError) : bool :=
  codeIs error 4001
  || messageIncludes error "user rejected"
  || messageIncludes error "cancelled by user".

(** The message shown to the user for the last error. *)
Definition userMessageOf (lastError : JsError) : option string :=
  if codeIs lastError 4001 then
    Some "Transaction cancelled by user"
  else if codeIs lastError (-32603) then
    Some "Transaction failed - insufficient funds or contract error"
  else if messageIncludes lastError "insufficient funds" then
    Some "Insufficient ETH balance for gas fees"
  else if messageIncludes lastError "user rejected" then
    Some "Transaction rejected by user"
  else if messageIncludes lastError "execution reverted" then
    Some "Contract execution failed - check your data"
  else if messageIncludes lastError "missing revert data" then
    Some "Contract call failed - please check your input data and try again"
  else if messageIncludes lastError "CALL_EXCEPTION" then
    Some "Contract call exception - please verify your data is correct"
  else err_message lastError.

(** [new Error(message)]: the error made has no code, and its message is
    the empty string when [message] is undefined. *)
Definition newError (message : option string) : JsError :=
  mkError None (Some (default EmptyString message)).

(** How the [for] loop ends. *)
Inductive LoopExit : Type :=
| LoopReturned (receipt : TransactionReceipt)
| LoopLeft (lastError : option JsError)
| LoopOutOfFuel.

Inductive Outcome : Type :=
| Returned (receipt : TransactionReceipt)
| Thrown (error : JsError)
| ThrownNullDereference
| OutOfFuel.

Section Loop.

Variable world : Z -> AttemptWorld.
Variable retries : Z.

Definition retryDelay (attempt : Z) : list Event :=
  if 0 <? attempt then [Sleep 1000] else [].

(** [for (let attempt = 0; attempt <= retries; attempt++)], started at
    [attempt] with [lastError]; [fuel] bounds the number of iterations. *)
Fixpoint attemptLoop (fuel : nat) (attempt : Z) (lastError : option JsError)
  : list Event * LoopExit :=
  match fuel with
  | O => ([], LoopOutOfFuel)
  | S fuel' =>
      if attempt <=? retries then
        let '(events, result) := runAttempt (world attempt) in
        match result with
        | inr receipt => (retryDelay attempt ++ events, LoopReturned receipt)
        | inl error =>
            if isUserCancellation error then
              (retryDelay attempt ++ events, LoopLeft (Some error))
            else if attempt =? retries then
              (retryDelay attempt ++ events, LoopLeft (Some error))
            else
              let '(later, exit) := attemptLoop fuel' (attempt + 1) (Some error) in
              (retryDelay attempt ++ events ++ later, exit)
        end
      else ([], LoopLeft lastError)
  end.

End Loop.

Definition executeTransaction (world : Z -> AttemptWorld) (options : Options)
  : list Event * Outcome :=
  let confirmations := default 1 (opt_confirmations options) in
  let timeout := default 300000 (opt_timeout options) in
  let retries := default 1 (opt_retries options) in
  let '(events, exit) :=
    attemptLoop world retries (S (Z.to_nat (retries + 1))) 0 None in
  match exit with
  | LoopReturned receipt => (events, Returned receipt)
  | LoopOutOfFuel => (events, OutOfFuel)
  | LoopLeft None => (events, ThrownNullDereference)
  | LoopLeft (Some lastError) =>
      let userMessage := userMessageOf lastError in
      (events ++ [StatusUpdate (mkStatus None failed 0 None None None userMessage)],
       Thrown (newError userMessage))
  end.

(** ** Vocabulary for the properties *)




Definition sleepsOf (events : list Event) : list Z :=
  omap (fun e => match e with
                 | Sleep ms => Some ms
                 | StatusUpdate _ => None
                 end) events.


(** The transaction options handed to the contract method by an attempt. *)
Definition submittedOptions (w : AttemptWorld) : TxOptions :=
  txOptionsFor (estimateContractCall w).

(** The figure the estimator settles on before any buffer is applied. *)
Definition chosenEstimate (w : AttemptWorld) : Z :=
  match getFeeData w, estimateOrFallback w with
  | inr _, inr gasLimit => gasLimit
  | _, _ => 400000
  end.




End TransactionPipeline.

Import FHE CreditAnalyzer.

(* ===================================================================== *)
(** * Part III-b.  The client-side encryption helpers                     *)
(* ===================================================================== *)

Module FheClient.
Import TransactionPipeline.

(** A [Uint8Array] is a list of integers, each in [0, 256). *)
Definition validBytes (bytes : list Z) : Prop :=
  Forall (fun b => 0 <= b < 256) bytes.

(** The two methods of an fhevmjs instance that the helpers call. *)
Record FhevmInstance : Type := mkInstance {
  encrypt32 : Z -> JsError + list Z;
  encrypt8 : Z -> JsError + list Z
}.

(** [new DataView(buffer).setUint32(0, value, true)] on a 4-byte buffer. *)
Definition littleEndian32 (value : Z) : list Z :=
  let v := value mod 2 ^ 32 in
  [v mod 256; (v / 2 ^ 8) mod 256; (v / 2 ^ 16) mod 256; (v / 2 ^ 24) mod 256].

(** The stand-in installed when [createInstance] fails. *)
Definition mockEncrypt32 (value : Z) : list Z :=
  littleEndian32 value ++ replicate 28 0.

Definition mockEncrypt8 (value : Z) : list Z :=
  (value mod 256) :: replicate 15 0.

Definition mockInstance : FhevmInstance :=
  mkInstance (fun value => inr (mockEncrypt32 value))
             (fun value => inr (mockEncrypt8 value)).

(** [initializeFHE], threading the module variable [fhevmInstance];
    [createInstance] is what the library call answers if it is made. *)
Definition initializeFHE (createInstance : JsError + FhevmInstance)
    (fhevmInstance : option FhevmInstance)
  : option FhevmInstance * FhevmInstance :=
  match fhevmInstance with
  | Some instance => (Some instance, instance)
  | None =>
      match createInstance with
      | inr instance => (Some instance, instance)
      | inl _ => (Some mockInstance, mockInstance)
      end
  end.

Definition notInitialized : JsError :=
  mkError None (Some "FHE instance not initialized").

Definition encryptUint32 (fhevmInstance : option FhevmInstance) (value : Z)
  : JsError + list Z :=
  match fhevmInstance with
  | None => inl notInitialized
  | Some instance => encrypt32 instance value
  end.

Definition encryptUint8 (fhevmInstance : option FhevmInstance) (value : Z)
  : JsError + list Z :=
  match fhevmInstance with
  | None => inl notInitialized
  | Some instance => encrypt8 instance value
  end.

Definition hexDigit (n : Z) : ascii :=
  nth (Z.to_nat n)
      ["0"; "1"; "2"; "3"; "4"; "5"; "6"; "7"; "8"; "9";
       "a"; "b"; "c"; "d"; "e"; "f"]%char "f"%char.

(** [b.toString(16)] for a byte. *)
Definition toString16 (b : Z) : string :=
  if b <? 16 then String (hexDigit b) EmptyString
  else String (hexDigit (b / 16)) (String (hexDigit (b mod 16)) EmptyString).

(** [s.padStart(2, '0')] *)
Definition padStart2 (s : string) : string :=
  match String.length s with
  | O => "00"
  | S O => String "0"%char s
  | _ => s
  end.

Fixpoint joinStrings (parts : list string) : string :=
  match parts with
  | [] => EmptyString
  | part :: rest => String.append part (joinStrings rest)
  end.

(** The 32 bytes that [encryptedToBytes32] renders. *)
Definition paddedBytes (encrypted : list Z) : list Z :=
  let bytes := take 32 encrypted in
  bytes ++ replicate (32 - length bytes) 0.

Definition encryptedToBytes32 (encrypted : list Z) : string :=
  String.append "0x"
    (joinStrings (map (fun b => padStart2 (toString16 b)) (paddedBytes encrypted))).

(** [decryptResult]: the bytes it decodes are never used; the result is the
    placeholder. *)
Definition decryptResult (fhevmInstance : option FhevmInstance)
    (encryptedResult : string) : JsError + Z :=
  match fhevmInstance with
  | None => inl notInitialized
  | Some _ => inr 0
  end.

Record PlainCreditData : Type := mkPlain {
  plain_income : Z;
  plain_debt : Z;
  plain_age : Z;
  plain_creditHistory : Z;
  plain_paymentHistory : Z
}.

Record EncryptedCreditData : Type := mkEncrypted {
  enc_encryptedIncome : string;
  enc_encryptedDebt : string;
  enc_encryptedAge : string;
  enc_encryptedCreditHistory : string;
  enc_encryptedPaymentHistory : string
}.

(** [encryptCreditData]: initialise, encrypt the five fields (the first
    rejection wins), render each as bytes32. *)
Definition encryptCreditData (createInstance : JsError + FhevmInstance)
    (fhevmInstance : option FhevmInstance) (data : PlainCreditData)
  : option FhevmInstance * (JsError + EncryptedCreditData) :=
  let '(fhevmInstance', _) := initializeFHE createInstance fhevmInstance in
  (fhevmInstance',
   match encryptUint32 fhevmInstance' (plain_income data),
         encryptUint32 fhevmInstance' (plain_debt data),
         encryptUint8 fhevmInstance' (plain_age data),
         encryptUint8 fhevmInstance' (plain_creditHistory data),
         encryptUint8 fhevmInstance' (plain_paymentHistory data) with
   | inr encryptedIncome, inr encryptedDebt, inr encryptedAge,
     inr encryptedCreditHistory, inr encryptedPaymentHistory =>
       inr (mkEncrypted (encryptedToBytes32 encryptedIncome)
                        (encryptedToBytes32 encryptedDebt)
                        (encryptedToBytes32 encryptedAge)
                        (encryptedToBytes32 encryptedCreditHistory)
                        (encryptedToBytes32 encryptedPaymentHistory))
   | inl error, _, _, _, _ => inl error
   | _, inl error, _, _, _ => inl error
   | _, _, inl error, _, _ => inl error
   | _, _, _, inl error, _ => inl error
   | _, _, _, _, inl error => inl error
   end).

(** [getFHEStatus().isInitialized] and [resetFHE]. *)
Definition isInitialized (fhevmInstance : option FhevmInstance) : bool :=
  match fhevmInstance with
  | Some _ => true
  | None => false
  end.

Definition resetFHE (fhevmInstance : option FhevmInstance)
  : option FhevmInstance := None.

End FheClient.

(* ===================================================================== *)
(** * Part III-c.  The application: form validation and what it offers    *)
(* ===================================================================== *)

Module App.

(** ** JavaScript string helpers, on code units below 256 *)

Definition isWhiteSpace (c : ascii) : bool :=
  let n := Z.of_nat (nat_of_ascii c) in
  (n =? 9) || (n =? 10) || (n =? 11) || (n =? 12) || (n =? 13)
  || (n =? 32) || (n =? 160).

Fixpoint trimStart (s : string) : string :=
  match s with
  | String c rest => if isWhiteSpace c then trimStart rest else s
  | EmptyString => EmptyString
  end.

Fixpoint trimEnd (s : string) : string :=
  match s with
  | String c rest =>
      match trimEnd rest with
      | EmptyString => if isWhiteSpace c then EmptyString else String c EmptyString
      | kept => String c kept
      end
  | EmptyString => EmptyString
  end.

(** [s.trim()] *)
Definition trim (s : string) : string := trimEnd (trimStart s).

(** The value of [c] as a digit in [radix], if it is one. *)
Definition digitValue (radix : Z) (c : ascii) : option Z :=
  let n := Z.of_nat (nat_of_ascii c) in
  let d := if (48 <=? n) && (n <=? 57) then Some (n - 48)
           else if (97 <=? n) && (n <=? 102) then Some (n - 87)
           else if (65 <=? n) && (n <=? 70) then Some (n - 55)
           else None in
  match d with
  | Some v => if v <? radix then Some v else None
  | None => None
  end.

(** The value of the longest prefix of digits, [acc] so far. *)
Fixpoint parseDigits (radix : Z) (s : string) (acc : option Z) : option Z :=
  match s with
  | String c rest =>
      match digitValue radix c with
      | Some d => parseDigits radix rest (Some (radix * default 0 acc + d))
      | None => acc
      end
  | EmptyString => acc
  end.

(** ** JavaScript numbers that hold an integer or an infinity

    [Finite n] is the double whose value is the integer [n]; the two
    zeros are not told apart (they compare alike and are stored alike).
    NaN is kept outside: a function that may answer NaN answers [None]. *)
Inductive JsNumber : Type :=
| Finite (n : Z)
| PlusInfinity
| MinusInfinity.

(** The double nearest to the integer [n], ties to the even significand,
    and an infinity from 2^1024 - 2^970 on. *)
Definition roundToDouble (n : Z) : JsNumber :=
  let magnitude := Z.abs n in
  if magnitude <? 2 ^ 53 then Finite n else
  let ulp := 2 ^ (Z.log2 magnitude - 52) in
  let significand := magnitude / ulp in
  let rest := magnitude mod ulp in
  let rounded :=
    if 2 * rest <? ulp then significand
    else if ulp <? 2 * rest then significand + 1
    else if Z.even significand then significand
    else significand + 1 in
  if 2 ^ 1024 <=? rounded * ulp then
    if n <? 0 then MinusInfinity else PlusInfinity
  else Finite (Z.sgn n * (rounded * ulp)).

(** [x < y] *)
Definition ltNum (x y : JsNumber) : bool :=
  match x, y with
  | Finite a, Finite b => a <? b
  | Finite _, PlusInfinity => true
  | Finite _, MinusInfinity => false
  | PlusInfinity, _ => false
  | MinusInfinity, MinusInfinity => false
  | MinusInfinity, _ => true
  end.

(** [x <= y] *)
Definition leNum (x y : JsNumber) : bool := negb (ltNum y x).

(** [x * 100] *)
Definition times100 (x : JsNumber) : JsNumber :=
  match x with
  | Finite n => roundToDouble (n * 100)
  | PlusInfinity => PlusInfinity
  | MinusInfinity => MinusInfinity
  end.

(** [parseInt(s)]: [None] is NaN.  The digits are read as an integer, which
    is then rounded to a double.  (For more than 20 significant decimal
    digits the language lets an implementation read the later digits as
    zeros before rounding; here the integer written is rounded.) *)
Definition parseInt (s : string) : option JsNumber :=
  let s := trimStart s in
  let '(sign, s) :=
    match s with
    | String c rest =>
        if Ascii.eqb c "-" then (-1, rest)
        else if Ascii.eqb c "+" then (1, rest)
        else (1, s)
    | EmptyString => (1, s)
    end in
  let '(radix, s) :=
    match s with
    | String c (String x rest) =>
        if Ascii.eqb c "0" && (Ascii.eqb x "x" || Ascii.eqb x "X")
        then (16, rest) else (10, s)
    | _ => (10, s)
    end in
  match parseDigits radix s None with
  | Some value => Some (roundToDouble (sign * value))
  | None => None
  end.

(** ** The form and its validation (the part of [submitCreditData] that
       runs before anything is encrypted or sent) *)

Record CreditDataForm : Type := mkForm {
  income : string;
  debt : string;
  age : string;
  creditHistory : string;
  paymentHistory : string
}.

(** Validation either shows an error and returns, or goes on to encrypt
    the five numbers it has read. *)
Inductive Validation : Type :=
| ShowError (message : string)
| Encrypt (income debt age creditHistory paymentHistory : JsNumber).


Definition isEmpty (s : string) : bool :=
  match s with
  | EmptyString => true
  | _ => false
  end.

(** [connected] stands for [contract && transactionExecutor];
    [balanceIsZero] for [parseFloat(balance) === 0]. *)
Definition validateCreditData (connected : bool) (creditData : CreditDataForm)
    (balanceIsZero : bool) : Validation :=
  if negb connected then ShowError "Please connect your wallet first!" else
  let incomeStr := trim (income creditData) in
  let debtStr := trim (debt creditData) in
  let ageStr := trim (age creditData) in
  let creditHistoryStr := trim (creditHistory creditData) in
  let paymentHistoryStr := trim (paymentHistory creditData) in
  if isEmpty incomeStr || isEmpty debtStr || isEmpty ageStr
     || isEmpty creditHistoryStr || isEmpty paymentHistoryStr
  then ShowError "Please fill in all fields!" else
  match parseInt incomeStr, parseInt debtStr, parseInt ageStr,
        parseInt creditHistoryStr, parseInt paymentHistoryStr with
  | Some income, Some debt, Some age, Some creditHistory, Some paymentHistory =>
      if ltNum age (Finite 18) || ltNum (Finite 100) age then
        ShowError "Age must be between 18 and 100!"
      else if ltNum paymentHistory (Finite 1) || ltNum (Finite 10) paymentHistory then
        ShowError "Payment history score must be between 1 and 10!"
      else if leNum income (Finite 0) then
        ShowError "Income must be greater than 0!"
      else if ltNum debt (Finite 0) then
        ShowError "Debt cannot be negative!"
      else if ltNum creditHistory (Finite 0) then
        ShowError "Credit history cannot be negative!"
      else if ltNum (Finite 10000000) income then
        ShowError "Income seems unusually high. Please verify your input."
      else if ltNum (times100 income) debt then
        ShowError "Debt amount seems unusually high compared to income."
      else if balanceIsZero then
        ShowError "Insufficient ETH balance to pay for gas fees. Please add Sepolia ETH to your wallet."
      else
        Encrypt income debt age creditHistory paymentHistory
  | _, _, _, _, _ => ShowError "Please enter valid numbers for all fields!"
  end.

(** ** What the page offers, from the status it read on chain *)

Record UserStatus : Type := mkUserStatus {
  us_hasSubmitted : bool;
  us_isEvaluated : bool;
  us_canApprove : bool
}.

(** [updateUserStatus], when both view calls answer. *)
Definition updateUserStatus (st : Storage) (account : N) : UserStatus :=
  let hasSubmitted := hasSubmittedCreditData account st in
  let isEvaluated := isCreditEvaluated account st in
  mkUserStatus hasSubmitted isEvaluated isEvaluated.

(** The form is rendered when the user has not submitted. *)
Definition showsForm (userStatus : UserStatus) : bool :=
  negb (us_hasSubmitted userStatus).

(** ActionButtons: the two buttons. *)
Definition showsEvaluateButton (userStatus : UserStatus) : bool :=
  us_hasSubmitted userStatus && negb (us_isEvaluated userStatus).

Definition showsApprovalButton (userStatus : UserStatus) : bool :=
  us_canApprove userStatus.

(** StatusInfo.getStatusMessage *)
Definition getStatusMessage (userStatus : UserStatus) : string :=
  if negb (us_hasSubmitted userStatus) then
    "📝 Submit your financial data for confidential evaluation"
  else if negb (us_isEvaluated userStatus) then
    "🔄 Evaluate your credit score using encrypted computation"
  else if us_canApprove userStatus then
    "✅ Request loan approval based on your score"
  else "Credit evaluation complete!".

(** Did the call go through? *)
Definition succeeds {A : Type} (result : Result A) : bool :=
  match result with
  | Ok _ => true
  | _ => false
  end.

End App.

(* ===================================================================== *)
(** * Concrete scenarios                                                  *)
(* ===================================================================== *)

Module Scenario.

Definition admin : N := 1%N.
Definition alice : N := 2%N.
Definition mallory : N := 3%N.

(** The Poor Credit profile of the walkthrough (Scenario B). *)
Definition scenarioB : CreditData := mkCreditData 2000 30000 20 1 3 true 0.

Definition deployed : Storage := constructor admin.

(** A submission of the Good Credit profile (Scenario A) by [who]. *)
(** The access-control list lets the contract use every handle of a
    submission except the debt. *)
Definition withheldDebt (arg : Argument) : bool :=
  match arg with
  | ArgDebt => false
  | _ => true
  end.

Definition submitBy (who : N) (time : Z) : Tx :=
  mkTx (mkMsg who time) (CallSubmitCreditData 8000 5000 35 8 9).

Definition evaluateBy (who user : N) (time : Z) : Tx :=
  mkTx (mkMsg who time) (CallEvaluateCreditScore user).

Definition requestBy (who : N) (time : Z) : Tx :=
  mkTx (mkMsg who time) CallRequestLoanApproval.

(** A submission of the Poor Credit profile (Scenario B) by [who]. *)
Definition submitPoorBy (who : N) (time : Z) : Tx :=
  mkTx (mkMsg who time) (CallSubmitCreditData 2000 30000 20 1 3).

(** Only alice has submitted. *)
Definition aliceSubmitted : Storage := run deployed [submitBy alice 100].

(** Only the administrator has submitted. *)
Definition adminSubmitted : Storage := run deployed [submitBy admin 100].

(** Alice has submitted and evaluated herself. *)
Definition aliceEvaluated : Storage :=
  run deployed [submitBy alice 100; evaluateBy alice alice 200].

End Scenario.

Module PipelineScenario.
Import TransactionPipeline.

Definition fees : FeeData :=
  mkFeeData (Some (gwei 3)) (Some (gwei 4)) (Some (gwei 1)).

Definition goodReceipt : TransactionReceipt :=
  mkReceipt (Some 1) 42 21000 (Some (gwei 3)).

Definition networkDown : JsError := mkError None (Some "network down").



(** Everything answers. *)
Definition healthy : AttemptWorld :=
  mkWorld (inr fees) (inr 100000) (inr tt)
          (fun _ => inr "0xabc") (fun _ _ => inr (Some goodReceipt)).

(** The fee query is rejected; the rest would answer. *)
Definition feeDataDown : AttemptWorld :=
  mkWorld (inl networkDown) (inr 100000) (inr tt)
          (fun _ => inr "0xabc") (fun _ _ => inr (Some goodReceipt)).

(** Gas estimation is rejected but the static call goes through. *)
Definition estimationDown : AttemptWorld :=
  mkWorld (inr fees) (inl networkDown) (inr tt)
          (fun _ => inr "0xabc") (fun _ _ => inr (Some goodReceipt)).




(** The wallet rejects with an error object that has neither a code nor a
    message. *)
Definition failsSilently : AttemptWorld :=
  mkWorld (inr fees) (inr 100000) (inr tt)
          (fun _ => inl (mkError None None)) (fun _ _ => inr None).

(** The transaction is mined but its execution reverted. *)
Definition revertedReceipt : TransactionReceipt :=
  mkReceipt (Some 0) 43 30000 (Some (gwei 3)).

Definition revertsOnChain : AttemptWorld :=
  mkWorld (inr fees) (inr 100000) (inr tt)
          (fun _ => inr "0xdef") (fun _ _ => inr (Some revertedReceipt)).

(** The provider knows a legacy gas price only. *)
Definition legacyFees : AttemptWorld :=
  mkWorld (inr (mkFeeData (Some (gwei 3)) None None)) (inr 100000) (inr tt)
          (fun _ => inr "0xabc") (fun _ _ => inr (Some goodReceipt)).



End PipelineScenario.

Module FormScenario.

(** A text of [count] digits 9. *)
Fixpoint digits (count : nat) : string :=
  match count with
  | O => EmptyString
  | S n => String "9" (digits n)
  end.

End FormScenario.

(** Unfold a call down to its guards. *)
Ltac open_call :=
  unfold applyTx, execute, submitCreditData, evaluateCreditScore,
    requestLoanApproval, getEncryptedCreditScore, getEncryptedLoanApproval,
    hasSubmittedData, require, mbind, Result_bind in *.

(* ===================================================================== *)
(** * Part IV.  Properties of the scoring engine                          *)
(* ===================================================================== *)

Section ScoringEngine.

Lemma asEuint8_small (v : Z) : 0 <= v < 256 -> asEuint8 v = v.
Proof. intros Hv. unfold asEuint8, wrap. apply Z.mod_small. lia. Qed.

Lemma enforceScoreLimits_range (score : Z) :
  1 <= _enforceScoreLimits score <= 5.
Proof.
  unfold _enforceScoreLimits, select, FHE.lt, FHE.gt.
  rewrite !asEuint8_small by lia.
  destruct (score <? 1) eqn:Hlow.
  - simpl. lia.
  - destruct (5 <? score) eqn:Hhigh; lia.
Qed.

(** C1 (evaluation of the code): on income=2000, debt=30000, age=20,
    creditHistory=1, paymentHistory=3 the [euint8] accumulator goes
    3, 2, 0 and then wraps to 255 on the last penalty; it never holds -1.
    The upper clamp then turns 255 into 5 and the approval flag is true,
    and that is what a submission followed by an evaluation stores. *)
Theorem scenarioB_accumulator_wraps :
  _applyDebtPenalty 3 30000 2000 = 255 /\
  runningScore Scenario.scenarioB = 255 /\
  runningScore Scenario.scenarioB = FHE.wrap 8 (-1) /\
  runningScore Scenario.scenarioB <> -1 /\
  scoreAndApproval Scenario.scenarioB = (5, true) /\
  evaluationOf
    (run Scenario.deployed
       [Scenario.submitPoorBy Scenario.alice 100;
        Scenario.evaluateBy Scenario.alice Scenario.alice 200])
    Scenario.alice
  = mkCreditEvaluation 5 true 200 true.
Proof. repeat split; vm_compute; congruence. Qed.

(** C2: whatever the record, the score stored by the evaluation lies in
    [1,5], and the approval flag is true exactly when that score is at
    least 3. *)
Theorem score_in_range_and_approval (data : CreditData) :
  1 <= fst (scoreAndApproval data) <= 5 /\
  (snd (scoreAndApproval data) = true <-> 3 <= fst (scoreAndApproval data)).
Proof.
  unfold scoreAndApproval. cbn [fst snd]. split.
  - apply enforceScoreLimits_range.
  - unfold FHE.ge, FAIR_SCORE. rewrite asEuint8_small by lia.
    apply Z.leb_le.
Qed.

End ScoringEngine.

(* ===================================================================== *)
(** * Part V.  Properties of the evaluation state machine                 *)
(* ===================================================================== *)

Section StateMachine.

Import Scenario.

(** The grants go through exactly when the contract may use all five
    handles. *)
Lemma grantDataAccessPermissions_cases (msg : Msg) (i d a c p : Z) :
  _grantDataAccessPermissions msg i d a c p
  = if mayUseAll msg
    then Ok (dataAccessGrants (sender msg) i d a c p)
    else Revert SenderNotAllowed.
Proof.
  unfold _grantDataAccessPermissions, allowThisSupplied, allowSupplied,
    mayUseAll, require, mbind, Result_bind.
  destruct (contractMayUse msg ArgIncome); [|reflexivity].
  destruct (contractMayUse msg ArgDebt); [|reflexivity].
  destruct (contractMayUse msg ArgAge); [|reflexivity].
  destruct (contractMayUse msg ArgCreditHistory); [|reflexivity].
  destruct (contractMayUse msg ArgPaymentHistory); reflexivity.
Qed.

(** [submitCreditData] by cases on its two guards. *)
Lemma submitCreditData_cases (msg : Msg) (i d a c p : Z) (st : Storage) :
  submitCreditData msg i d a c p st
  = if hasSubmitted (submissionOf st (sender msg)) then Revert AlreadySubmitted
    else if mayUseAll msg then
      Ok (mkStorage (owner st) (totalEvaluations st)
            (<[sender msg := mkCreditData i d a c p true (timestamp msg)]>
               (creditSubmissions st))
            (creditEvaluations st),
          dataAccessGrants (sender msg) i d a c p
          ++ [CreditDataSubmitted (sender msg) (timestamp msg)])
    else Revert SenderNotAllowed.
Proof.
  unfold submitCreditData. rewrite grantDataAccessPermissions_cases.
  unfold require, mbind, Result_bind.
  destruct (hasSubmitted (submissionOf st (sender msg))); [reflexivity|].
  destruct (mayUseAll msg); reflexivity.
Qed.

Lemma submissionOf_insert_eq (st : Storage) (user : N) (record : CreditData)
    (total : Z) (evaluations : gmap N CreditEvaluation) :
  submissionOf (mkStorage (owner st) total
                  (<[user := record]> (creditSubmissions st)) evaluations) user
  = record.
Proof. unfold submissionOf. cbn. by rewrite lookup_insert_eq. Qed.

Lemma submissionOf_insert_ne (st : Storage) (user other : N)
    (record : CreditData) (total : Z) (evaluations : gmap N CreditEvaluation) :
  user <> other ->
  submissionOf (mkStorage (owner st) total
                  (<[user := record]> (creditSubmissions st)) evaluations) other
  = submissionOf st other.
Proof. intros Hne. unfold submissionOf. cbn. by rewrite lookup_insert_ne. Qed.

(** [evaluateCreditScore] never writes a credit record. *)
Lemma evaluate_keeps_submissions (msg : Msg) (user : N) (st st' : Storage)
    (log : list Log) :
  evaluateCreditScore msg user st = Ok (st', log) ->
  creditSubmissions st' = creditSubmissions st.
Proof.
  open_call.
  destruct (hasSubmitted (submissionOf st (sender msg))); [|discriminate].
  destruct ((sender msg =? user)%N || (sender msg =? owner st)%N); [|discriminate].
  destruct (isEvaluated (evaluationOf st user)); [discriminate|].
  cbn. destruct (scoreAndApproval (submissionOf st user)) as [score approved].
  destruct (UINT256_MAX <=? totalEvaluations st); [discriminate|].
  intros [= <- _]. reflexivity.
Qed.

(** A record that exists is left alone by every transaction. *)
Lemma applyTx_keeps_record (st : Storage) (tx : Tx) (user : N) :
  hasSubmitted (submissionOf st user) = true ->
  submissionOf (applyTx st tx) user = submissionOf st user.
Proof.
  intros Hsub. unfold applyTx.
  destruct (execute st tx) as [[st' log]| |] eqn:Hexec; try reflexivity.
  unfold execute in Hexec. destruct (tx_call tx) as [i d a c p|target|].
  - rewrite submitCreditData_cases in Hexec.
    destruct (hasSubmitted (submissionOf st (sender (tx_msg tx)))) eqn:Hs;
      [discriminate|].
    destruct (mayUseAll (tx_msg tx)); [|discriminate].
    injection Hexec as <- _.
    apply submissionOf_insert_ne. intros Heq. rewrite Heq in Hs. congruence.
  - apply evaluate_keeps_submissions in Hexec.
    unfold submissionOf. by rewrite Hexec.
  - open_call.
    destruct (hasSubmitted (submissionOf st (sender (tx_msg tx)))); [|discriminate].
    destruct (isEvaluated (evaluationOf st (sender (tx_msg tx)))); [|discriminate].
    cbn in Hexec. by injection Hexec as <- _.
Qed.

Lemma run_keeps_record (txs : list Tx) (st : Storage) (user : N) :
  hasSubmitted (submissionOf st user) = true ->
  submissionOf (run st txs) user = submissionOf st user.
Proof.
  revert st. induction txs as [|tx txs IH]; intros st Hsub; [reflexivity|].
  change (run st (tx :: txs)) with (run (applyTx st tx) txs). rewrite IH.
  - by apply applyTx_keeps_record.
  - by rewrite applyTx_keeps_record.
Qed.

(** A successful evaluation stores what the scoring engine computes from
    the subject's slot, and marks the subject as evaluated. *)
Lemma evaluate_stores_engine_result (msg : Msg) (user : N) (st st' : Storage)
    (log : list Log) :
  evaluateCreditScore msg user st = Ok (st', log) ->
  evaluationOf st' user
  = mkCreditEvaluation (fst (scoreAndApproval (submissionOf st user))) true
      (timestamp msg) (snd (scoreAndApproval (submissionOf st user))).
Proof.
  open_call.
  destruct (hasSubmitted (submissionOf st (sender msg))); [|discriminate].
  destruct ((sender msg =? user)%N || (sender msg =? owner st)%N); [|discriminate].
  destruct (isEvaluated (evaluationOf st user)); [discriminate|].
  cbn. destruct (scoreAndApproval (submissionOf st user)) as [score approved].
  destruct (UINT256_MAX <=? totalEvaluations st); [discriminate|].
  intros [= <- _]. unfold evaluationOf. cbn. by rewrite lookup_insert_eq.
Qed.

(** When the subject evaluates itself the guards are those of the
    lifecycle: NotSubmitted, then AlreadyEvaluated, else success. *)
Lemma evaluate_by_subject (msg : Msg) (st : Storage) :
  (hasSubmittedCreditData (sender msg) st = false ->
   evaluateCreditScore msg (sender msg) st = Revert NotSubmitted) /\
  (hasSubmittedCreditData (sender msg) st = true ->
   isCreditEvaluated (sender msg) st = true ->
   evaluateCreditScore msg (sender msg) st = Revert AlreadyEvaluated) /\
  (hasSubmittedCreditData (sender msg) st = true ->
   isCreditEvaluated (sender msg) st = false ->
   totalEvaluations st < UINT256_MAX ->
   exists (st' : Storage) (log : list Log),
     evaluateCreditScore msg (sender msg) st = Ok (st', log) /\
     isCreditEvaluated (sender msg) st' = true).
Proof.
  unfold hasSubmittedCreditData, isCreditEvaluated.
  split; [|split].
  - intros Hsub. open_call. by rewrite Hsub.
  - intros Hsub Heval. open_call. by rewrite Hsub, N.eqb_refl, Heval.
  - intros Hsub Heval Hroom.
    destruct (evaluateCreditScore msg (sender msg) st) as [[st' log]| |] eqn:Hcall.
    + exists st', log. split; [reflexivity|].
      by rewrite (evaluate_stores_engine_result _ _ _ _ _ Hcall).
    + exfalso. open_call. rewrite Hsub, N.eqb_refl, Heval in Hcall. cbn in Hcall.
      destruct (scoreAndApproval (submissionOf st (sender msg))).
      destruct (UINT256_MAX <=? totalEvaluations st); discriminate.
    + exfalso. open_call. rewrite Hsub, N.eqb_refl, Heval in Hcall. cbn in Hcall.
      destruct (scoreAndApproval (submissionOf st (sender msg))).
      destruct (UINT256_MAX <=? totalEvaluations st) eqn:Hmax; [|discriminate].
      apply Z.leb_le in Hmax. lia.
Qed.

(** A caller that is neither the subject nor the owner never succeeds. *)
Lemma evaluate_rejects_third_parties (msg : Msg) (user : N) (st : Storage) :
  sender msg <> user -> sender msg <> owner st ->
  exists reason : string, evaluateCreditScore msg user st = Revert reason.
Proof.
  intros Hsubject Howner. apply N.eqb_neq in Hsubject, Howner. open_call.
  rewrite Hsubject, Howner.
  destruct (hasSubmitted (submissionOf st (sender msg))); cbn; eauto.
Qed.

(** C3 (evaluation of the code): the submission guard of
    [evaluateCreditScore] reads the caller's slot, not the subject's.
    With the administrator calling for alice: if only alice has submitted
    the call reverts with NotSubmitted, also when alice is already
    evaluated; if only the administrator has submitted, the call succeeds
    and marks alice, who never submitted, as evaluated. *)
Theorem evaluate_guard_reads_caller_slot :
  (hasSubmittedCreditData alice aliceSubmitted = true /\
   isCreditEvaluated alice aliceSubmitted = false /\
   evaluateCreditScore (mkMsg admin 200) alice aliceSubmitted
     = Revert NotSubmitted) /\
  (isCreditEvaluated alice aliceEvaluated = true /\
   evaluateCreditScore (mkMsg admin 300) alice aliceEvaluated
     = Revert NotSubmitted) /\
  (hasSubmittedCreditData alice adminSubmitted = false /\
   isSuccessfulEvaluation adminSubmitted (evaluateBy admin alice 200) = true /\
   isCreditEvaluated alice
     (applyTx adminSubmitted (evaluateBy admin alice 200)) = true).
Proof. repeat split; vm_compute; reflexivity. Qed.

(** C4: once [submitCreditData] has succeeded for an identity, then after
    any further history of transactions every submission by that identity
    reverts with AlreadySubmitted, whatever its arguments, and the stored
    record (five ciphertexts, flag, time) is the one written by the
    successful call. *)
Theorem submit_is_one_shot (st st' : Storage) (msg : Msg) (log : list Log)
    (income debt age creditHistory paymentHistory : Z) :
  submitCreditData msg income debt age creditHistory paymentHistory st
    = Ok (st', log) ->
  submissionOf st' (sender msg)
    = mkCreditData income debt age creditHistory paymentHistory true
        (timestamp msg) /\
  forall (txs : list Tx),
    submissionOf (run st' txs) (sender msg) = submissionOf st' (sender msg) /\
    forall (msg' : Msg) (income' debt' age' creditHistory' paymentHistory' : Z),
      sender msg' = sender msg ->
      submitCreditData msg' income' debt' age' creditHistory' paymentHistory'
        (run st' txs) = Revert AlreadySubmitted.
Proof.
  intros Hok.
  assert (Hrec : submissionOf st' (sender msg)
                 = mkCreditData income debt age creditHistory paymentHistory
                     true (timestamp msg)).
  { rewrite submitCreditData_cases in Hok.
    destruct (hasSubmitted (submissionOf st (sender msg))); [discriminate|].
    destruct (mayUseAll msg); [|discriminate].
    injection Hok as <- _. apply submissionOf_insert_eq. }
  split; [exact Hrec|].
  intros txs.
  assert (Hkeep : submissionOf (run st' txs) (sender msg)
                  = submissionOf st' (sender msg)).
  { apply run_keeps_record. by rewrite Hrec. }
  split; [exact Hkeep|].
  intros msg' i' d' a' c' p' Hsame.
  rewrite submitCreditData_cases.
  rewrite Hsame, Hkeep, Hrec. reflexivity.
Qed.

Lemma submit_is_one_shot_witness :
  submissionOf aliceSubmitted alice = mkCreditData 8000 5000 35 8 9 true 100 /\
  forall (txs : list Tx),
    submissionOf (run aliceSubmitted txs) alice
      = submissionOf aliceSubmitted alice /\
    forall (msg' : Msg) (income' debt' age' creditHistory' paymentHistory' : Z),
      sender msg' = alice ->
      submitCreditData msg' income' debt' age' creditHistory' paymentHistory'
        (run aliceSubmitted txs) = Revert AlreadySubmitted.
Proof.
  apply (submit_is_one_shot deployed aliceSubmitted (mkMsg alice 100)
           (dataAccessGrants alice 8000 5000 35 8 9
            ++ [CreditDataSubmitted alice 100])
           8000 5000 35 8 9).
  reflexivity.
Defined.

(** C5 (as stated, refuted): a caller who has not even submitted is below
    Evaluated, yet [requestLoanApproval] answers NotSubmitted, not
    NotEvaluated. *)
Lemma requestLoanApproval_unsubmitted_reason :
  isCreditEvaluated alice deployed = false /\
  requestLoanApproval (mkMsg alice 50) deployed = Revert NotSubmitted /\
  requestLoanApproval (mkMsg alice 50) deployed <> Revert NotEvaluated.
Proof. repeat split; vm_compute; congruence. Qed.

(** C5 (amended): [requestLoanApproval] reverts with NotSubmitted when the
    caller has no record and with NotEvaluated when the caller has a
    record but no evaluation; otherwise it succeeds, and a successful call
    returns the storage it was given (records, evaluations, counter and
    owner untouched) and logs one LoanApprovalRequested. *)
Theorem requestLoanApproval_guards_and_frame (st : Storage) (msg : Msg) :
  (hasSubmittedCreditData (sender msg) st = false ->
   requestLoanApproval msg st = Revert NotSubmitted) /\
  (hasSubmittedCreditData (sender msg) st = true ->
   isCreditEvaluated (sender msg) st = false ->
   requestLoanApproval msg st = Revert NotEvaluated) /\
  (hasSubmittedCreditData (sender msg) st = true ->
   isCreditEvaluated (sender msg) st = true ->
   requestLoanApproval msg st
     = Ok (st, [LoanApprovalRequested (sender msg) (timestamp msg)])) /\
  (forall (st' : Storage) (log : list Log),
     requestLoanApproval msg st = Ok (st', log) ->
     st' = st /\
     (forall user : N, submissionOf st' user = submissionOf st user) /\
     (forall user : N, evaluationOf st' user = evaluationOf st user) /\
     totalEvaluations st' = totalEvaluations st).
Proof.
  unfold hasSubmittedCreditData, isCreditEvaluated. open_call.
  destruct (hasSubmitted (submissionOf st (sender msg)));
    destruct (isEvaluated (evaluationOf st (sender msg))); cbn;
    repeat split; try congruence.
  all: intros st' log [= <- _]; repeat split; reflexivity.
Qed.

Lemma requestLoanApproval_guards_and_frame_witness :
  requestLoanApproval (mkMsg alice 50) deployed = Revert NotSubmitted /\
  requestLoanApproval (mkMsg alice 150) aliceSubmitted = Revert NotEvaluated /\
  requestLoanApproval (mkMsg alice 250) aliceEvaluated
    = Ok (aliceEvaluated, [LoanApprovalRequested alice 250]).
Proof.
  split; [|split].
  - apply (requestLoanApproval_guards_and_frame deployed (mkMsg alice 50)).
    reflexivity.
  - apply (requestLoanApproval_guards_and_frame aliceSubmitted (mkMsg alice 150));
      reflexivity.
  - apply (requestLoanApproval_guards_and_frame aliceEvaluated (mkMsg alice 250));
      reflexivity.
Defined.

(** C6: a caller who is neither the subject nor the owner gets
    NotAuthorized from both getters, so neither returns a handle to such
    a caller. *)
Theorem getters_reject_third_parties (st : Storage) (msg : Msg) (user : N)
    (Hsubject : sender msg <> user) (Howner : sender msg <> owner st) :
  getEncryptedCreditScore msg user st = Revert NotAuthorized /\
  getEncryptedLoanApproval msg user st = Revert NotAuthorized /\
  (forall score : Z, getEncryptedCreditScore msg user st <> Ok score) /\
  (forall approved : bool, getEncryptedLoanApproval msg user st <> Ok approved).
Proof.
  open_call.
  apply N.eqb_neq in Hsubject, Howner. rewrite Hsubject, Howner. cbn.
  repeat split; congruence.
Qed.

Lemma getters_reject_third_parties_witness :
  getEncryptedCreditScore (mkMsg mallory 300) alice aliceEvaluated
    = Revert NotAuthorized /\
  getEncryptedLoanApproval (mkMsg mallory 300) alice aliceEvaluated
    = Revert NotAuthorized /\
  (forall score : Z,
     getEncryptedCreditScore (mkMsg mallory 300) alice aliceEvaluated <> Ok score) /\
  (forall approved : bool,
     getEncryptedLoanApproval (mkMsg mallory 300) alice aliceEvaluated
       <> Ok approved).
Proof.
  apply (getters_reject_third_parties aliceEvaluated (mkMsg mallory 300) alice);
    vm_compute; discriminate.
Defined.

(** The subject and the owner do get the stored handles once evaluated. *)
Lemma getters_serve_subject_and_owner (st : Storage) (msg : Msg) (user : N) :
  sender msg = user \/ sender msg = owner st ->
  isCreditEvaluated user st = true ->
  getEncryptedCreditScore msg user st = Ok (encryptedScore (evaluationOf st user)) /\
  getEncryptedLoanApproval msg user st = Ok (isApproved (evaluationOf st user)).
Proof.
  unfold isCreditEvaluated. intros Hwho Heval. open_call.
  assert (Hauth : ((sender msg =? user)%N || (sender msg =? owner st)%N) = true).
  { apply orb_true_iff. destruct Hwho as [H|H]; [left|right]; by apply N.eqb_eq. }
  rewrite Hauth, Heval. split; reflexivity.
Qed.

End StateMachine.

(* ===================================================================== *)
(** * Part VI.  The evaluation counter                                    *)
(* ===================================================================== *)

Section EvaluationCounter.

Lemma evaluatedCount_insert (st : Storage) (user : N) (total : Z)
    (submissions : gmap N CreditData) (evaluation : CreditEvaluation) :
  isEvaluated (evaluationOf st user) = false ->
  isEvaluated evaluation = true ->
  evaluatedCount (mkStorage (owner st) total submissions
                    (<[user := evaluation]> (creditEvaluations st)))
  = S (evaluatedCount st).
Proof.
  intros Hnot Hyes. unfold evaluatedCount. cbn [creditEvaluations].
  rewrite map_filter_insert_True by exact Hyes.
  apply map_size_insert_None.
  apply map_lookup_filter_None.
  unfold evaluationOf in Hnot.
  destruct (creditEvaluations st !! user) as [old|] eqn:Hold; [right|by left].
  intros x [= <-]. cbn in *. congruence.
Qed.

(** What one transaction does to the counter. *)
Lemma applyTx_counter (st : Storage) (tx : Tx) :
  totalEvaluations (applyTx st tx)
  = totalEvaluations st + (if isSuccessfulEvaluation st tx then 1 else 0).
Proof.
  unfold applyTx, isSuccessfulEvaluation, execute.
  destruct (tx_call tx) as [i d a c p|user|].
  - rewrite submitCreditData_cases.
    destruct (hasSubmitted (submissionOf st (sender (tx_msg tx)))); [cbn; lia|].
    destruct (mayUseAll (tx_msg tx)); cbn; lia.
  - unfold evaluateCreditScore, hasSubmittedData, require, mbind, Result_bind.
    destruct (hasSubmitted (submissionOf st (sender (tx_msg tx)))); cbn; [|lia].
    destruct ((sender (tx_msg tx) =? user)%N || (sender (tx_msg tx) =? owner st)%N);
      cbn; [|lia].
    destruct (isEvaluated (evaluationOf st user)); cbn; [lia|].
    destruct (scoreAndApproval (submissionOf st user)) as [score approved].
    destruct (UINT256_MAX <=? totalEvaluations st); cbn; lia.
  - unfold requestLoanApproval, hasSubmittedData, require, mbind, Result_bind.
    destruct (hasSubmitted (submissionOf st (sender (tx_msg tx)))); cbn; [|lia].
    destruct (isEvaluated (evaluationOf st (sender (tx_msg tx)))); cbn; lia.
Qed.

Lemma applyTx_counterMatches (st : Storage) (tx : Tx) :
  counterMatches st -> counterMatches (applyTx st tx).
Proof.
  unfold counterMatches. intros Hinv.
  unfold applyTx, execute.
  destruct (tx_call tx) as [i d a c p|user|].
  - rewrite submitCreditData_cases.
    destruct (hasSubmitted (submissionOf st (sender (tx_msg tx))));
      [exact Hinv|].
    destruct (mayUseAll (tx_msg tx)); exact Hinv.
  - unfold evaluateCreditScore, hasSubmittedData, require, mbind, Result_bind.
    destruct (hasSubmitted (submissionOf st (sender (tx_msg tx)))); cbn;
      [|exact Hinv].
    destruct ((sender (tx_msg tx) =? user)%N || (sender (tx_msg tx) =? owner st)%N);
      cbn; [|exact Hinv].
    destruct (isEvaluated (evaluationOf st user)) eqn:Hnot; cbn; [exact Hinv|].
    destruct (scoreAndApproval (submissionOf st user)) as [score approved].
    destruct (UINT256_MAX <=? totalEvaluations st); cbn; [exact Hinv|].
    rewrite evaluatedCount_insert by (exact Hnot || reflexivity). lia.
  - unfold requestLoanApproval, hasSubmittedData, require, mbind, Result_bind.
    destruct (hasSubmitted (submissionOf st (sender (tx_msg tx)))); cbn;
      [|exact Hinv].
    destruct (isEvaluated (evaluationOf st (sender (tx_msg tx)))); cbn; exact Hinv.
Qed.

Lemma run_counterMatches (txs : list Tx) (st : Storage) :
  counterMatches st -> counterMatches (run st txs).
Proof.
  revert st. induction txs as [|tx txs IH]; intros st Hinv; [exact Hinv|].
  change (run st (tx :: txs)) with (run (applyTx st tx) txs).
  apply IH, applyTx_counterMatches, Hinv.
Qed.

(** C10: the counter is 0 after construction; in every state reached from
    construction by any history of transactions it equals the number of
    identities whose evaluation exists; and a transaction adds exactly 1
    to it when it is a successful evaluation and leaves it unchanged
    otherwise (so it never decreases). *)
Theorem totalEvaluations_counts_evaluated (deployer : N) (txs : list Tx) :
  getEvaluationStats (constructor deployer) = 0 /\
  getEvaluationStats (run (constructor deployer) txs)
    = Z.of_nat (evaluatedCount (run (constructor deployer) txs)) /\
  (forall (st : Storage) (tx : Tx),
     getEvaluationStats (applyTx st tx)
     = getEvaluationStats st + (if isSuccessfulEvaluation st tx then 1 else 0)) /\
  (forall (st : Storage) (tx : Tx),
     getEvaluationStats st <= getEvaluationStats (applyTx st tx)).
Proof.
  unfold getEvaluationStats. split; [reflexivity|]. split; [|split].
  - apply run_counterMatches. reflexivity.
  - apply applyTx_counter.
  - intros st tx. rewrite applyTx_counter.
    destruct (isSuccessfulEvaluation st tx); lia.
Qed.

End EvaluationCounter.

(* ===================================================================== *)
(** * Part VII.  Properties of the transaction pipeline                   *)
(* ===================================================================== *)

Section Pipeline.

Import TransactionPipeline PipelineScenario.

(** ** Gas limit *)

(** C8 (as stated, refuted): when the fee query is rejected the estimator
    settles on its fixed 400000 and that very figure is submitted; it is
    not 1.5 times the estimate. *)
Lemma default_estimate_is_not_buffered :
  chosenEstimate feeDataDown = 400000 /\
  txo_gasLimit (submittedOptions feeDataDown) = 400000 /\
  2 * txo_gasLimit (submittedOptions feeDataDown)
    <> 3 * chosenEstimate feeDataDown.
Proof. repeat split; vm_compute; congruence. Qed.

Lemma txOptionsFor_gasLimit (gasEstimate : GasEstimate) :
  txo_gasLimit (txOptionsFor gasEstimate) = gasLimit gasEstimate.
Proof.
  unfold txOptionsFor.
  destruct (truthy (maxFeePerGas gasEstimate)
            && truthy (maxPriorityFeePerGas gasEstimate)); [reflexivity|].
  destruct (negb (gasPrice gasEstimate =? 0)); reflexivity.
Qed.

Lemma buffer_rounds_down (estimate : Z) :
  0 <= estimate ->
  2 * ((estimate * 150) ÷ 100) <= 3 * estimate < 2 * ((estimate * 150) ÷ 100) + 2.
Proof.
  intros Hpos. rewrite Z.quot_div_nonneg by lia.
  pose proof (Z.div_mod (estimate * 150) 100) as Hdm.
  pose proof (Z.mod_pos_bound (estimate * 150) 100) as Hm.
  lia.
Qed.

(** C8 (amended): an attempt calls the contract method with the options
    [submittedOptions] and looks at no others.  Their gas limit is the
    dynamic estimate times 150 divided by 100, rounded down, when the fee
    query and the estimation succeed; 450000, which is the fallback 300000
    with the same buffer, when the fee query succeeds, the estimation fails
    and the static call succeeds; and the fixed default 400000, with no
    buffer, when the fee query is rejected. *)
Theorem submitted_gas_limit (w : AttemptWorld) :
  (forall (method : TxOptions -> JsError + string),
     method (submittedOptions w) = sendTransaction w (submittedOptions w) ->
     runAttempt (mkWorld (getFeeData w) (estimateGas w) (staticCall w)
                   method (waitForTransaction w))
     = runAttempt w) /\
  (forall (feeData : FeeData) (estimate : Z),
     getFeeData w = inr feeData -> estimateGas w = inr estimate ->
     txo_gasLimit (submittedOptions w) = (estimate * 150) ÷ 100 /\
     (0 <= estimate ->
      2 * txo_gasLimit (submittedOptions w) <= 3 * estimate
        < 2 * txo_gasLimit (submittedOptions w) + 2)) /\
  (forall (feeData : FeeData) (estimationError : JsError) (ok : unit),
     getFeeData w = inr feeData -> estimateGas w = inl estimationError ->
     staticCall w = inr ok ->
     txo_gasLimit (submittedOptions w) = (300000 * 150) ÷ 100 /\
     txo_gasLimit (submittedOptions w) = 450000) /\
  (forall (feeError : JsError),
     getFeeData w = inl feeError ->
     txo_gasLimit (submittedOptions w) = 400000).
Proof.
  split.
  { intros method Hsame. unfold runAttempt, trackTransaction.
    change (estimateContractCall
              (mkWorld (getFeeData w) (estimateGas w) (staticCall w) method
                 (waitForTransaction w)))
      with (estimateContractCall w).
    cbn [sendTransaction waitForTransaction].
    fold (submittedOptions w). by rewrite Hsame. }
  unfold submittedOptions. rewrite txOptionsFor_gasLimit.
  unfold estimateContractCall, estimateOrFallback.
  split; [|split].
  - intros feeData estimate Hfee Hest. rewrite Hfee, Hest. cbn [gasLimit].
    split; [reflexivity|]. apply buffer_rounds_down.
  - intros feeData estimationError ok Hfee Hest Hstatic.
    rewrite Hfee, Hest, Hstatic. split; reflexivity.
  - intros feeError Hfee. rewrite Hfee. reflexivity.
Qed.

Lemma submitted_gas_limit_witness :
  runAttempt (mkWorld (getFeeData healthy) (estimateGas healthy)
                (staticCall healthy)
                (fun options => if txo_gasLimit options =? 150000
                                then inr "0xabc" else inl networkDown)
                (waitForTransaction healthy))
  = runAttempt healthy /\
  txo_gasLimit (submittedOptions healthy) = (100000 * 150) ÷ 100 /\
  txo_gasLimit (submittedOptions estimationDown) = 450000 /\
  txo_gasLimit (submittedOptions feeDataDown) = 400000.
Proof.
  split; [|split; [|split]].
  - exact (proj1 (submitted_gas_limit healthy) _ eq_refl).
  - exact (proj1 (proj1 (proj2 (submitted_gas_limit healthy))
                    fees 100000 eq_refl eq_refl)).
  - exact (proj2 (proj1 (proj2 (proj2 (submitted_gas_limit estimationDown)))
                    fees networkDown tt eq_refl eq_refl eq_refl)).
  - exact (proj2 (proj2 (proj2 (submitted_gas_limit feeDataDown)))
             networkDown eq_refl).
Defined.

(** ** Progress reports *)









(** ** Retries *)



Lemma sleepsOf_app (l1 l2 : list Event) :
  sleepsOf (l1 ++ l2) = sleepsOf l1 ++ sleepsOf l2.
Proof. apply omap_app. Qed.

Lemma runAttempt_never_sleeps (w : AttemptWorld) :
  sleepsOf (fst (runAttempt w)) = [].
Proof.
  unfold runAttempt.
  destruct (sendTransaction w (txOptionsFor (estimateContractCall w)))
    as [error|txHash]; [reflexivity|].
  unfold trackTransaction.
  destruct (waitForTransaction w txHash 1) as [error|[receipt|]]; reflexivity.
Qed.




Section RetryLoop.

Variable world : Z -> AttemptWorld.
Variable retries : Z.




(** The fuel handed to the loop by [executeTransaction] is never used up. *)
Lemma attemptLoop_has_fuel (fuel : nat) :
  forall (attempt : Z) (lastError : option JsError),
    (0 < fuel)%nat ->
    retries - attempt + 1 < Z.of_nat fuel ->
    snd (attemptLoop world retries fuel attempt lastError) <> LoopOutOfFuel.
Proof.
  induction fuel as [|fuel IH]; intros attempt lastError Hpos Hfuel; [lia|].
  cbn [attemptLoop].
  destruct (attempt <=? retries) eqn:Hle; [|discriminate].
  destruct (runAttempt (world attempt)) as [events [error|receipt]];
    [|discriminate].
  destruct (isUserCancellation error); [discriminate|].
  destruct (attempt =? retries) eqn:Hlast; [discriminate|].
  apply Z.leb_le in Hle. apply Z.eqb_neq in Hlast.
  specialize (IH (attempt + 1) (Some error)).
  destruct (attemptLoop world retries fuel (attempt + 1) (Some error))
    as [later exit].
  cbn [snd] in *. apply IH; lia.
Qed.

End RetryLoop.

(** [executeTransaction] always comes to an end. *)
Lemma executeTransaction_terminates (world : Z -> AttemptWorld)
    (options : Options) :
  snd (executeTransaction world options) <> OutOfFuel.
Proof.
  unfold executeTransaction.
  pose proof (attemptLoop_has_fuel world (default 1 (opt_retries options))
                (S (Z.to_nat (default 1 (opt_retries options) + 1))) 0 None)
    as Hfuel.
  destruct (attemptLoop world (default 1 (opt_retries options))
              (S (Z.to_nat (default 1 (opt_retries options) + 1))) 0 None)
    as [events [receipt|[lastError|]|]]; cbn [snd] in *; try discriminate.
  exfalso. apply Hfuel; [lia|lia|reflexivity].
Qed.

Lemma last_app_nonempty {A : Type} (l1 l2 : list A) (x : A) :
  last l2 = Some x -> last (l1 ++ l2) = Some x.
Proof.
  intros Hlast. destruct l2 as [|y l2]; [discriminate|].
  rewrite last_app. by rewrite Hlast.
Qed.




End Pipeline.

(* ===================================================================== *)
(** * Part VIII.  Further properties of the contract                      *)
(* ===================================================================== *)

Section ContractFurther.

Import Scenario.

(** What a transaction can do to the storage: nothing, write the sender's
    credit record, or write the subject's evaluation and count it. *)
Lemma applyTx_inv (st : Storage) (tx : Tx) :
  applyTx st tx = st \/
  (exists (i d a c p : Z),
     tx_call tx = CallSubmitCreditData i d a c p /\
     hasSubmitted (submissionOf st (sender (tx_msg tx))) = false /\
     applyTx st tx
     = mkStorage (owner st) (totalEvaluations st)
         (<[sender (tx_msg tx) := mkCreditData i d a c p true
                                    (timestamp (tx_msg tx))]>
            (creditSubmissions st))
         (creditEvaluations st)) \/
  (exists (user : N),
     tx_call tx = CallEvaluateCreditScore user /\
     hasSubmitted (submissionOf st (sender (tx_msg tx))) = true /\
     (sender (tx_msg tx) = user \/ sender (tx_msg tx) = owner st) /\
     isEvaluated (evaluationOf st user) = false /\
     applyTx st tx
     = mkStorage (owner st) (totalEvaluations st + 1) (creditSubmissions st)
         (<[user := mkCreditEvaluation
                      (fst (scoreAndApproval (submissionOf st user))) true
                      (timestamp (tx_msg tx))
                      (snd (scoreAndApproval (submissionOf st user)))]>
            (creditEvaluations st))).
Proof.
  unfold applyTx, execute.
  destruct (tx_call tx) as [i d a c p|user|].
  - rewrite submitCreditData_cases.
    destruct (hasSubmitted (submissionOf st (sender (tx_msg tx)))) eqn:Hsub;
      [by left|].
    destruct (mayUseAll (tx_msg tx)); [|by left].
    right. left. exists i, d, a, c, p.
    repeat split; first [reflexivity|assumption].
  - unfold evaluateCreditScore, hasSubmittedData, require, mbind, Result_bind.
    destruct (hasSubmitted (submissionOf st (sender (tx_msg tx)))) eqn:Hsub; cbn;
      [|by left].
    destruct ((sender (tx_msg tx) =? user)%N || (sender (tx_msg tx) =? owner st)%N)
      eqn:Hauth; cbn; [|by left].
    destruct (isEvaluated (evaluationOf st user)) eqn:Heval; cbn; [by left|].
    destruct (scoreAndApproval (submissionOf st user)) as [score approved] eqn:Hsc.
    destruct (UINT256_MAX <=? totalEvaluations st); cbn; [by left|].
    right. right. exists user.
    split; [reflexivity|]. split; [first [reflexivity|assumption]|]. split.
    { apply orb_true_iff in Hauth.
      destruct Hauth as [H|H]; apply N.eqb_eq in H; [by left|by right]. }
    split; first [reflexivity|assumption].
  - unfold requestLoanApproval, hasSubmittedData, require, mbind, Result_bind.
    destruct (hasSubmitted (submissionOf st (sender (tx_msg tx)))); cbn; [|by left].
    destruct (isEvaluated (evaluationOf st (sender (tx_msg tx)))); cbn; by left.
Qed.

(** A property kept by every transaction is kept by every history. *)
Lemma run_invariant (P : Storage -> Prop) :
  (forall (st : Storage) (tx : Tx), P st -> P (applyTx st tx)) ->
  forall (txs : list Tx) (st : Storage), P st -> P (run st txs).
Proof.
  intros Hstep txs. induction txs as [|tx txs IH]; intros st Hst; [exact Hst|].
  change (run st (tx :: txs)) with (run (applyTx st tx) txs).
  apply IH, Hstep, Hst.
Qed.

(** The owner set by the constructor is the owner for ever: no history of
    transactions, by whomever, changes it. *)
Theorem owner_never_changes (deployer : N) (txs : list Tx) :
  owner (run (constructor deployer) txs) = deployer.
Proof.
  apply (run_invariant (fun st => owner st = deployer)); [|reflexivity].
  intros st tx Hown.
  destruct (applyTx_inv st tx) as [-> | [(i & d & a & c & p & _ & _ & ->)
                                       | (user & _ & _ & _ & _ & ->)]];
    exact Hown.
Qed.

Lemma applyTx_keeps_evaluation (st : Storage) (tx : Tx) (user : N) :
  isEvaluated (evaluationOf st user) = true ->
  evaluationOf (applyTx st tx) user = evaluationOf st user.
Proof.
  intros Heval.
  destruct (applyTx_inv st tx) as [-> | [(i & d & a & c & p & _ & _ & ->)
                                       | (other & _ & _ & _ & Hnot & ->)]];
    try reflexivity.
  unfold evaluationOf. cbn [creditEvaluations].
  rewrite lookup_insert_ne; [reflexivity|]. intros ->. congruence.
Qed.

(** An evaluation, once created, is final: after any further history it is
    unchanged, and every later [evaluateCreditScore] for that identity, by
    any caller, reverts. *)
Theorem evaluation_is_final (st : Storage) (user : N)
    (Hevaluated : isCreditEvaluated user st = true) :
  forall (txs : list Tx),
    evaluationOf (run st txs) user = evaluationOf st user /\
    forall (msg : Msg),
      exists reason : string,
        evaluateCreditScore msg user (run st txs) = Revert reason.
Proof.
  intros txs.
  assert (Hkeep : evaluationOf (run st txs) user = evaluationOf st user
                  /\ isEvaluated (evaluationOf (run st txs) user) = true).
  { apply (run_invariant
             (fun st' => evaluationOf st' user = evaluationOf st user
                         /\ isEvaluated (evaluationOf st' user) = true)).
    - intros st' tx [Hsame Hev].
      rewrite applyTx_keeps_evaluation by exact Hev. by split.
    - by split. }
  destruct Hkeep as [Hsame Hev]. split; [exact Hsame|].
  intros msg. open_call.
  destruct (hasSubmitted (submissionOf (run st txs) (sender msg))); cbn; eauto.
  destruct ((sender msg =? user)%N || (sender msg =? owner (run st txs))%N);
    cbn; eauto.
  rewrite Hev. cbn. eauto.
Qed.

Lemma evaluation_is_final_witness :
  evaluationOf
    (run aliceEvaluated [submitBy admin 300; evaluateBy admin alice 400]) alice
  = evaluationOf aliceEvaluated alice /\
  exists reason : string,
    evaluateCreditScore (mkMsg admin 500) alice
      (run aliceEvaluated [submitBy admin 300; evaluateBy admin alice 400])
    = Revert reason.
Proof.
  destruct (evaluation_is_final aliceEvaluated alice eq_refl
              [submitBy admin 300; evaluateBy admin alice 400])
    as [Hsame Hreverts].
  split; [exact Hsame|exact (Hreverts (mkMsg admin 500))].
Defined.

(** Nobody writes another identity's credit record: a history in which
    [user] sends nothing leaves [user]'s record exactly as it was. *)
Theorem record_written_only_by_its_owner (txs : list Tx) :
  forall (st : Storage) (user : N),
    Forall (fun tx => sender (tx_msg tx) <> user) txs ->
    submissionOf (run st txs) user = submissionOf st user.
Proof.
  induction txs as [|tx txs IH]; intros st user Hothers; [reflexivity|].
  change (run st (tx :: txs)) with (run (applyTx st tx) txs).
  apply Forall_cons in Hothers as [Hne Hrest].
  rewrite IH by exact Hrest.
  destruct (applyTx_inv st tx) as [-> | [(i & d & a & c & p & _ & _ & ->)
                                       | (other & _ & _ & _ & _ & ->)]];
    try reflexivity.
  by apply submissionOf_insert_ne.
Qed.

Lemma record_written_only_by_its_owner_witness :
  submissionOf
    (run aliceSubmitted [submitBy mallory 300; evaluateBy admin alice 400;
                         requestBy mallory 500]) alice
  = submissionOf aliceSubmitted alice.
Proof.
  apply (record_written_only_by_its_owner
           [submitBy mallory 300; evaluateBy admin alice 400;
            requestBy mallory 500] aliceSubmitted alice).
  repeat constructor; vm_compute; discriminate.
Defined.

(** An evaluation can only be brought about by its subject or by the
    owner: if a transaction changes the evaluation of [user], it is a call
    of [evaluateCreditScore] for [user] sent by [user] or by the owner. *)
Theorem evaluation_written_only_by_subject_or_owner (st : Storage) (tx : Tx)
    (user : N) :
  evaluationOf (applyTx st tx) user <> evaluationOf st user ->
  tx_call tx = CallEvaluateCreditScore user /\
  (sender (tx_msg tx) = user \/ sender (tx_msg tx) = owner st).
Proof.
  intros Hchanged.
  destruct (applyTx_inv st tx) as [Hsame | [(i & d & a & c & p & _ & _ & Hsub)
                                          | (other & Hcall & _ & Hwho & _ & Hev)]].
  - rewrite Hsame in Hchanged. congruence.
  - rewrite Hsub in Hchanged. unfold evaluationOf in Hchanged.
    cbn in Hchanged. congruence.
  - destruct (decide (other = user)) as [->|Hne]; [by split|].
    exfalso. apply Hchanged. rewrite Hev. unfold evaluationOf.
    cbn [creditEvaluations]. by rewrite lookup_insert_ne.
Qed.

Lemma evaluation_written_only_by_subject_or_owner_witness :
  tx_call (evaluateBy alice alice 200) = CallEvaluateCreditScore alice /\
  (sender (tx_msg (evaluateBy alice alice 200)) = alice
   \/ sender (tx_msg (evaluateBy alice alice 200)) = owner aliceSubmitted).
Proof.
  apply (evaluation_written_only_by_subject_or_owner aliceSubmitted
           (evaluateBy alice alice 200) alice).
  vm_compute. discriminate.
Defined.

Lemma run_keeps_owner (txs : list Tx) (st : Storage) :
  owner (run st txs) = owner st.
Proof.
  apply (run_invariant (fun st' => owner st' = owner st)); [|reflexivity].
  intros st' tx Hown.
  destruct (applyTx_inv st' tx) as [-> | [(i & d & a & c & p & _ & _ & ->)
                                        | (user & _ & _ & _ & _ & ->)]];
    exact Hown.
Qed.

Lemma scoreAndApproval_valid (data : CreditData) :
  1 <= fst (scoreAndApproval data) <= 5 /\
  (snd (scoreAndApproval data) = true <-> 3 <= fst (scoreAndApproval data)).
Proof.
  unfold scoreAndApproval. cbn [fst snd]. split.
  - apply enforceScoreLimits_range.
  - unfold FHE.ge, FAIR_SCORE. rewrite asEuint8_small by lia. apply Z.leb_le.
Qed.

(** In every state reached from the constructor, every evaluation that
    exists holds a score between 1 and 5 and an approval flag that is true
    exactly when the score is at least 3. *)
Theorem stored_evaluations_are_valid (deployer : N) (txs : list Tx) (user : N) :
  isCreditEvaluated user (run (constructor deployer) txs) = true ->
  1 <= encryptedScore (evaluationOf (run (constructor deployer) txs) user) <= 5 /\
  (isApproved (evaluationOf (run (constructor deployer) txs) user) = true
   <-> 3 <= encryptedScore (evaluationOf (run (constructor deployer) txs) user)).
Proof.
  unfold isCreditEvaluated. revert user.
  apply (run_invariant
           (fun st => forall user : N,
              isEvaluated (evaluationOf st user) = true ->
              1 <= encryptedScore (evaluationOf st user) <= 5 /\
              (isApproved (evaluationOf st user) = true
               <-> 3 <= encryptedScore (evaluationOf st user)))).
  - intros st tx Hinv user.
    destruct (applyTx_inv st tx) as [-> | [(i & d & a & c & p & _ & _ & ->)
                                         | (subject & _ & _ & _ & _ & ->)]];
      try apply Hinv.
    unfold evaluationOf. cbn [creditEvaluations].
    destruct (decide (subject = user)) as [->|Hne].
    + rewrite lookup_insert_eq. cbn. intros _. apply scoreAndApproval_valid.
    + rewrite lookup_insert_ne by exact Hne. apply Hinv.
  - intros user. vm_compute. discriminate.
Qed.

Lemma stored_evaluations_are_valid_witness :
  1 <= encryptedScore (evaluationOf aliceEvaluated alice) <= 5 /\
  (isApproved (evaluationOf aliceEvaluated alice) = true
   <-> 3 <= encryptedScore (evaluationOf aliceEvaluated alice)).
Proof.
  apply (stored_evaluations_are_valid admin
           [submitBy alice 100; evaluateBy alice alice 200] alice).
  reflexivity.
Defined.

(** Slots nobody wrote are all-zero in every reachable state. *)
Lemma unsubmitted_record_is_zero (deployer : N) (txs : list Tx) (user : N) :
  hasSubmitted (submissionOf (run (constructor deployer) txs) user) = false ->
  submissionOf (run (constructor deployer) txs) user = zeroCreditData.
Proof.
  revert user.
  apply (run_invariant
           (fun st => forall user : N,
              hasSubmitted (submissionOf st user) = false ->
              submissionOf st user = zeroCreditData)).
  - intros st tx Hinv user.
    destruct (applyTx_inv st tx) as [-> | [(i & d & a & c & p & _ & _ & ->)
                                         | (subject & _ & _ & _ & _ & ->)]];
      try apply Hinv.
    unfold submissionOf. cbn [creditSubmissions].
    destruct (decide (sender (tx_msg tx) = user)) as [->|Hne].
    + rewrite lookup_insert_eq. cbn. discriminate.
    + rewrite lookup_insert_ne by exact Hne. apply Hinv.
  - intros user _. reflexivity.
Qed.

(** Evaluating an identity that never submitted: in any reachable state
    such a call can only succeed for the owner, it scores the all-zero
    record, and what it stores is score 3 with the approval flag set. *)
Theorem evaluation_without_record_is_approved (deployer : N) (txs : list Tx)
    (msg : Msg) (user : N) (st' : Storage) (log : list Log) :
  hasSubmittedCreditData user (run (constructor deployer) txs) = false ->
  evaluateCreditScore msg user (run (constructor deployer) txs) = Ok (st', log) ->
  sender msg = deployer /\ sender msg <> user /\
  evaluationOf st' user = mkCreditEvaluation 3 true (timestamp msg) true.
Proof.
  unfold hasSubmittedCreditData. intros Hnone Hok.
  pose proof (evaluate_stores_engine_result _ _ _ _ _ Hok) as Hstored.
  rewrite (unsubmitted_record_is_zero _ _ _ Hnone) in Hstored.
  split; [|split; [|exact Hstored]].
  - open_call.
    destruct (hasSubmitted (submissionOf (run (constructor deployer) txs)
                              (sender msg))) eqn:Hsender; [|discriminate].
    destruct (sender msg =? user)%N eqn:Hsame.
    + apply N.eqb_eq in Hsame. congruence.
    + rewrite run_keeps_owner in Hok. cbn in Hok.
      destruct (sender msg =? deployer)%N eqn:Hown; [|discriminate].
      by apply N.eqb_eq.
  - intros Hsame. open_call. rewrite Hsame, Hnone in Hok. discriminate.
Qed.

Lemma evaluation_without_record_is_approved_witness :
  sender (mkMsg admin 200) = admin /\ sender (mkMsg admin 200) <> alice /\
  evaluationOf (applyTx adminSubmitted (evaluateBy admin alice 200)) alice
  = mkCreditEvaluation 3 true 200 true.
Proof.
  apply (evaluation_without_record_is_approved admin [submitBy admin 100]
           (mkMsg admin 200) alice
           (applyTx adminSubmitted (evaluateBy admin alice 200))
           [AllowThis (Ct8 3); AllowThis (CtBool true); Allow (Ct8 3) alice;
            Allow (CtBool true) alice; CreditEvaluated alice 200]);
    reflexivity.
Defined.

(** The whole lifecycle goes through for a fresh identity whose five
    handles the access-control list lets the contract use: submit, then
    evaluate, then request approval all succeed in that order; the getters
    refuse before the evaluation and afterwards hand the subject exactly
    what the scoring engine computes from the submitted record.  When the
    list withholds one of the five handles from the contract, the
    submission reverts with SenderNotAllowed instead, whatever the later
    calls would be allowed. *)
Theorem lifecycle_completes (st : Storage) (user : N)
    (income debt age creditHistory paymentHistory t1 t2 t3 : Z)
    (may1 may2 may3 : Argument -> bool) :
  hasSubmittedCreditData user st = false ->
  isCreditEvaluated user st = false ->
  totalEvaluations st < UINT256_MAX ->
  (mayUseAll (mkCall user t1 may1) = true ->
   exists (st1 st2 : Storage) (log2 : list Log),
    submitCreditData (mkCall user t1 may1) income debt age creditHistory
      paymentHistory st
      = Ok (st1, dataAccessGrants user income debt age creditHistory
                   paymentHistory ++ [CreditDataSubmitted user t1]) /\
    getEncryptedCreditScore (mkCall user t2 may2) user st1
      = Revert "Not evaluated" /\
    getEncryptedLoanApproval (mkCall user t2 may2) user st1
      = Revert "Not evaluated" /\
    evaluateCreditScore (mkCall user t2 may2) user st1 = Ok (st2, log2) /\
    requestLoanApproval (mkCall user t3 may3) st2
      = Ok (st2, [LoanApprovalRequested user t3]) /\
    getEncryptedCreditScore (mkCall user t3 may3) user st2
      = Ok (fst (scoreAndApproval
                   (mkCreditData income debt age creditHistory paymentHistory
                      true t1))) /\
    getEncryptedLoanApproval (mkCall user t3 may3) user st2
      = Ok (snd (scoreAndApproval
                   (mkCreditData income debt age creditHistory paymentHistory
                      true t1)))) /\
  (mayUseAll (mkCall user t1 may1) = false ->
   submitCreditData (mkCall user t1 may1) income debt age creditHistory
     paymentHistory st = Revert SenderNotAllowed).
Proof.
  unfold hasSubmittedCreditData, isCreditEvaluated.
  intros Hfresh Hnot Hroom.
  split; cycle 1.
  { intros Hmay. rewrite submitCreditData_cases. cbn [sender].
    by rewrite Hfresh, Hmay. }
  intros Hmay.
  set (record := mkCreditData income debt age creditHistory paymentHistory true t1).
  set (st1 := mkStorage (owner st) (totalEvaluations st)
                (<[user := record]> (creditSubmissions st))
                (creditEvaluations st)).
  set (evaluation := mkCreditEvaluation (fst (scoreAndApproval record)) true t2
                       (snd (scoreAndApproval record))).
  set (st2 := mkStorage (owner st) (totalEvaluations st + 1)
                (<[user := record]> (creditSubmissions st))
                (<[user := evaluation]> (creditEvaluations st))).
  assert (Hrec1 : submissionOf st1 user = record)
    by (unfold submissionOf, st1; cbn; by rewrite lookup_insert_eq).
  assert (Hev1 : evaluationOf st1 user = evaluationOf st user) by reflexivity.
  assert (Hrec2 : submissionOf st2 user = record)
    by (unfold submissionOf, st2; cbn; by rewrite lookup_insert_eq).
  assert (Hev2 : evaluationOf st2 user = evaluation)
    by (unfold evaluationOf, st2; cbn; by rewrite lookup_insert_eq).
  assert (Hmax : (UINT256_MAX <=? totalEvaluations st) = false)
    by (apply Z.leb_gt; lia).
  exists st1, st2.
  exists [AllowThis (Ct8 (fst (scoreAndApproval record)));
          AllowThis (CtBool (snd (scoreAndApproval record)));
          Allow (Ct8 (fst (scoreAndApproval record))) user;
          Allow (CtBool (snd (scoreAndApproval record))) user;
          CreditEvaluated user t2].
  split; [|split; [|split; [|split; [|split; [|split]]]]].
  - rewrite submitCreditData_cases. cbn [sender timestamp].
    by rewrite Hfresh, Hmay.
  - open_call. cbn [sender]. by rewrite N.eqb_refl, Hev1, Hnot.
  - open_call. cbn [sender]. by rewrite N.eqb_refl, Hev1, Hnot.
  - open_call. cbn [sender timestamp].
    rewrite Hrec1, N.eqb_refl, Hev1, Hnot. cbn.
    change (totalEvaluations st1) with (totalEvaluations st). rewrite Hmax.
    reflexivity.
  - open_call. cbn [sender timestamp]. by rewrite Hrec2, Hev2.
  - open_call. cbn [sender]. by rewrite N.eqb_refl, Hev2.
  - open_call. cbn [sender]. by rewrite N.eqb_refl, Hev2.
Qed.

Lemma lifecycle_completes_witness :
  (exists (st1 st2 : Storage) (log2 : list Log),
    submitCreditData (mkMsg alice 100) 8000 5000 35 8 9 deployed
      = Ok (st1, dataAccessGrants alice 8000 5000 35 8 9
                   ++ [CreditDataSubmitted alice 100]) /\
    getEncryptedCreditScore (mkMsg alice 200) alice st1 = Revert "Not evaluated" /\
    getEncryptedLoanApproval (mkMsg alice 200) alice st1 = Revert "Not evaluated" /\
    evaluateCreditScore (mkMsg alice 200) alice st1 = Ok (st2, log2) /\
    requestLoanApproval (mkMsg alice 300) st2
      = Ok (st2, [LoanApprovalRequested alice 300]) /\
    getEncryptedCreditScore (mkMsg alice 300) alice st2
      = Ok (fst (scoreAndApproval (mkCreditData 8000 5000 35 8 9 true 100))) /\
    getEncryptedLoanApproval (mkMsg alice 300) alice st2
      = Ok (snd (scoreAndApproval (mkCreditData 8000 5000 35 8 9 true 100)))) /\
  submitCreditData (mkCall alice 100 withheldDebt) 8000 5000 35 8 9 deployed
  = Revert SenderNotAllowed.
Proof.
  split.
  - refine (proj1 (lifecycle_completes deployed alice 8000 5000 35 8 9
                     100 200 300 _ _ _ _ _ _) _);
      vm_compute; reflexivity.
  - refine (proj2 (lifecycle_completes deployed alice 8000 5000 35 8 9
                     100 200 300 withheldDebt (fun _ => true) (fun _ => true)
                     _ _ _) _);
      vm_compute; reflexivity.
Defined.

(** The log of a successful evaluation. *)
Lemma evaluate_log (msg : Msg) (user : N) (st st' : Storage) (log : list Log) :
  evaluateCreditScore msg user st = Ok (st', log) ->
  log = [AllowThis (Ct8 (fst (scoreAndApproval (submissionOf st user))));
         AllowThis (CtBool (snd (scoreAndApproval (submissionOf st user))));
         Allow (Ct8 (fst (scoreAndApproval (submissionOf st user)))) user;
         Allow (CtBool (snd (scoreAndApproval (submissionOf st user)))) user;
         CreditEvaluated user (timestamp msg)].
Proof.
  unfold evaluateCreditScore, hasSubmittedData, require, mbind, Result_bind.
  destruct (hasSubmitted (submissionOf st (sender msg))); [|discriminate].
  destruct ((sender msg =? user)%N || (sender msg =? owner st)%N); [|discriminate].
  destruct (isEvaluated (evaluationOf st user)); [discriminate|].
  cbv beta iota.
  remember (scoreAndApproval (submissionOf st user)) as result eqn:Hresult.
  destruct result as [score approved].
  destruct (UINT256_MAX <=? totalEvaluations st); [discriminate|].
  intros [= _ <-]. reflexivity.
Qed.

(** Decryption rights are handed out to the sender of a submission and to
    the subject of an evaluation only: an evaluation requested by the
    owner grants the owner nothing, and what it grants to the subject are
    the stored score and approval flag. *)
Theorem access_is_granted_to_sender_or_subject (st st' : Storage) (msg : Msg)
    (log : list Log) :
  (forall (i d a c p : Z),
     submitCreditData msg i d a c p st = Ok (st', log) ->
     forall (ct : Ciphertext) (who : N),
       In (Allow ct who) log -> who = sender msg) /\
  (forall (user : N),
     evaluateCreditScore msg user st = Ok (st', log) ->
     forall (ct : Ciphertext) (who : N),
       In (Allow ct who) log ->
       who = user /\
       (ct = Ct8 (encryptedScore (evaluationOf st' user))
        \/ ct = CtBool (isApproved (evaluationOf st' user)))).
Proof.
  split.
  - intros i d a c p Hok ct who Hin.
    rewrite submitCreditData_cases in Hok.
    destruct (hasSubmitted (submissionOf st (sender msg))); [discriminate|].
    destruct (mayUseAll msg); [|discriminate].
    injection Hok as _ <-. cbn in Hin.
    repeat (destruct Hin as [Hin|Hin]; [congruence|]). destruct Hin.
  - intros user Hok ct who Hin.
    rewrite (evaluate_stores_engine_result _ _ _ _ _ Hok).
    rewrite (evaluate_log _ _ _ _ _ Hok) in Hin.
    cbn [encryptedScore isApproved]. cbn in Hin.
    destruct Hin as [Hin|[Hin|[Hin|[Hin|[Hin|[]]]]]]; try discriminate Hin.
    + injection Hin as <- <-. split; [reflexivity|by left].
    + injection Hin as <- <-. split; [reflexivity|by right].
Qed.

Lemma access_is_granted_to_sender_or_subject_witness :
  alice = alice /\
  (Ct8 3 = Ct8 (encryptedScore
                  (evaluationOf
                     (applyTx adminSubmitted (evaluateBy admin alice 200)) alice))
   \/ Ct8 3 = CtBool (isApproved
                        (evaluationOf
                           (applyTx adminSubmitted (evaluateBy admin alice 200))
                           alice))).
Proof.
  apply (proj2 (access_is_granted_to_sender_or_subject adminSubmitted
                  (applyTx adminSubmitted (evaluateBy admin alice 200))
                  (mkMsg admin 200)
                  [AllowThis (Ct8 3); AllowThis (CtBool true);
                   Allow (Ct8 3) alice; Allow (CtBool true) alice;
                   CreditEvaluated alice 200]) alice eq_refl (Ct8 3) alice).
  cbn. tauto.
Defined.

Lemma run_counter_bound (txs : list Tx) :
  forall st : Storage,
    totalEvaluations st <= totalEvaluations (run st txs)
      <= totalEvaluations st + Z.of_nat (length txs).
Proof.
  induction txs as [|tx txs IH]; intros st; [cbn; lia|].
  change (run st (tx :: txs)) with (run (applyTx st tx) txs).
  specialize (IH (applyTx st tx)). rewrite applyTx_counter in IH.
  cbn [length]. destruct (isSuccessfulEvaluation st tx); lia.
Qed.

(** The counter reported by [getEvaluationStats] never exceeds the number
    of transactions executed since deployment, and it never goes down
    along a history. *)
Theorem evaluation_counter_is_bounded (deployer : N) (txs more : list Tx) :
  0 <= getEvaluationStats (run (constructor deployer) txs)
    <= Z.of_nat (length txs) /\
  getEvaluationStats (run (constructor deployer) txs)
    <= getEvaluationStats (run (constructor deployer) (txs ++ more)).
Proof.
  unfold getEvaluationStats. split.
  - pose proof (run_counter_bound txs (constructor deployer)) as Hb.
    cbn [totalEvaluations constructor] in Hb. lia.
  - unfold run. rewrite fold_left_app.
    apply (run_counter_bound more).
Qed.

End ContractFurther.

(* ===================================================================== *)
(** * Part IX.  Further properties of the scoring rubric                  *)
(* ===================================================================== *)

Section ScoringFurther.

(** One threshold of the rubric: the score, or the score plus one. *)
Lemma bonus_step (earned : bool) (score : Z) :
  0 <= score < 255 ->
  score <= select earned (add8 score (asEuint8 1)) score <= score + 1.
Proof.
  intros Hscore. unfold select, add8, asEuint8, wrap.
  destruct earned; [|lia].
  change (1 mod 2 ^ 8) with 1. rewrite Z.mod_small by lia. lia.
Qed.

Lemma applyAgeBonus_bounds (score age : Z) :
  0 <= score <= 253 -> score <= _applyAgeBonus score age <= score + 2.
Proof.
  intros Hscore. unfold _applyAgeBonus. cbv zeta.
  pose proof (bonus_step (FHE.gt age (asEuint8 25)) score ltac:(lia)) as H1.
  pose proof (bonus_step (FHE.gt age (asEuint8 40))
                (select (FHE.gt age (asEuint8 25)) (add8 score (asEuint8 1)) score)
                ltac:(lia)) as H2.
  lia.
Qed.

Lemma applyCreditHistoryBonus_bounds (score history : Z) :
  0 <= score <= 253 ->
  score <= _applyCreditHistoryBonus score history <= score + 2.
Proof.
  intros Hscore. unfold _applyCreditHistoryBonus. cbv zeta.
  pose proof (bonus_step (FHE.gt history (asEuint8 5)) score ltac:(lia)) as H1.
  pose proof (bonus_step (FHE.gt history (asEuint8 10))
                (select (FHE.gt history (asEuint8 5))
                   (add8 score (asEuint8 1)) score)
                ltac:(lia)) as H2.
  lia.
Qed.

Lemma applyPaymentHistoryBonus_bounds (score payment : Z) :
  0 <= score <= 253 ->
  score <= _applyPaymentHistoryBonus score payment <= score + 2.
Proof.
  intros Hscore. unfold _applyPaymentHistoryBonus. cbv zeta.
  pose proof (bonus_step (FHE.gt payment (asEuint8 7)) score ltac:(lia)) as H1.
  pose proof (bonus_step (FHE.eq payment (asEuint8 10))
                (select (FHE.gt payment (asEuint8 7))
                   (add8 score (asEuint8 1)) score)
                ltac:(lia)) as H2.
  lia.
Qed.

Lemma applyIncomeBonus_bounds (score income : Z) :
  0 <= score <= 253 -> score <= _applyIncomeBonus score income <= score + 2.
Proof.
  intros Hscore. unfold _applyIncomeBonus. cbv zeta.
  pose proof (bonus_step (FHE.gt income (asEuint32 5000)) score ltac:(lia)) as H1.
  pose proof (bonus_step (FHE.gt income (asEuint32 10000))
                (select (FHE.gt income (asEuint32 5000))
                   (add8 score (asEuint8 1)) score)
                ltac:(lia)) as H2.
  lia.
Qed.

Lemma double_income (income : Z) :
  0 <= income < 2 ^ 31 -> mul32 income (asEuint32 2) = 2 * income.
Proof.
  intros Hrange. unfold mul32, asEuint32, wrap.
  change (2 mod 2 ^ 32) with 2. rewrite Z.mod_small by lia. lia.
Qed.

(** No penalty applies to a debt that exceeds neither 20000 nor the
    income. *)
Lemma applyDebtPenalty_none (score debt income : Z) :
  debt <= 20000 -> debt <= income -> 0 <= income < 2 ^ 31 ->
  _applyDebtPenalty score debt income = score.
Proof.
  intros Hdebt Hincome Hrange. unfold _applyDebtPenalty. cbv zeta.
  rewrite double_income by exact Hrange.
  replace (FHE.gt debt (asEuint32 20000)) with false
    by (symmetry; apply Z.ltb_ge; change (asEuint32 20000) with 20000; lia).
  replace (FHE.gt debt (asEuint32 50000)) with false
    by (symmetry; apply Z.ltb_ge; change (asEuint32 50000) with 50000; lia).
  replace (FHE.gt debt income) with false by (symmetry; apply Z.ltb_ge; lia).
  replace (FHE.gt debt (2 * income)) with false
    by (symmetry; apply Z.ltb_ge; lia).
  reflexivity.
Qed.

(** Low debt always passes: when the debt exceeds neither 20000 nor the
    income (and twice the income fits in 32 bits), no penalty applies, the
    accumulator stays between 3 and 11, and the loan is approved whatever
    the age, credit history and payment history are. *)
Theorem low_debt_is_approved (data : CreditData) :
  encryptedDebt data <= 20000 ->
  encryptedDebt data <= encryptedIncome data ->
  0 <= encryptedIncome data < 2 ^ 31 ->
  3 <= runningScore data <= 11 /\
  3 <= fst (scoreAndApproval data) <= 5 /\
  snd (scoreAndApproval data) = true.
Proof.
  intros Hdebt Hincome Hrange.
  assert (Hrunning : 3 <= runningScore data <= 11).
  { unfold runningScore, _calculateBaseScore. cbv zeta.
    change (asEuint8 FAIR_SCORE) with 3.
    rewrite applyDebtPenalty_none by assumption.
    pose proof (applyAgeBonus_bounds 3 (encryptedAge data) ltac:(lia)) as H1.
    pose proof (applyCreditHistoryBonus_bounds
                  (_applyAgeBonus 3 (encryptedAge data))
                  (encryptedCreditHistory data) ltac:(lia)) as H2.
    pose proof (applyPaymentHistoryBonus_bounds
                  (_applyCreditHistoryBonus
                     (_applyAgeBonus 3 (encryptedAge data))
                     (encryptedCreditHistory data))
                  (encryptedPaymentHistory data) ltac:(lia)) as H3.
    pose proof (applyIncomeBonus_bounds
                  (_applyPaymentHistoryBonus
                     (_applyCreditHistoryBonus
                        (_applyAgeBonus 3 (encryptedAge data))
                        (encryptedCreditHistory data))
                     (encryptedPaymentHistory data))
                  (encryptedIncome data) ltac:(lia)) as H4.
    lia. }
  split; [exact Hrunning|].
  unfold scoreAndApproval. cbn [fst snd].
  assert (Hclamped : 3 <= _enforceScoreLimits (runningScore data) <= 5).
  { unfold _enforceScoreLimits, select, FHE.lt, FHE.gt.
    rewrite !asEuint8_small by lia.
    replace (runningScore data <? 1) with false
      by (symmetry; apply Z.ltb_ge; lia).
    destruct (5 <? runningScore data) eqn:Hhigh; [lia|].
    apply Z.ltb_ge in Hhigh. lia. }
  split; [exact Hclamped|].
  unfold FHE.ge, FAIR_SCORE. rewrite asEuint8_small by lia.
  apply Z.leb_le. lia.
Qed.

Lemma low_debt_is_approved_witness :
  3 <= runningScore (mkCreditData 8000 5000 35 8 9 true 0) <= 11 /\
  3 <= fst (scoreAndApproval (mkCreditData 8000 5000 35 8 9 true 0)) <= 5 /\
  snd (scoreAndApproval (mkCreditData 8000 5000 35 8 9 true 0)) = true.
Proof.
  apply (low_debt_is_approved (mkCreditData 8000 5000 35 8 9 true 0));
    cbn; lia.
Defined.

Lemma applyAgeBonus_none (score age : Z) :
  age <= 25 -> _applyAgeBonus score age = score.
Proof.
  intros Hage. unfold _applyAgeBonus. cbv zeta.
  replace (FHE.gt age (asEuint8 25)) with false
    by (symmetry; apply Z.ltb_ge; change (asEuint8 25) with 25; lia).
  replace (FHE.gt age (asEuint8 40)) with false
    by (symmetry; apply Z.ltb_ge; change (asEuint8 40) with 40; lia).
  reflexivity.
Qed.

Lemma applyCreditHistoryBonus_none (score history : Z) :
  history <= 5 -> _applyCreditHistoryBonus score history = score.
Proof.
  intros Hhistory. unfold _applyCreditHistoryBonus. cbv zeta.
  replace (FHE.gt history (asEuint8 5)) with false
    by (symmetry; apply Z.ltb_ge; change (asEuint8 5) with 5; lia).
  replace (FHE.gt history (asEuint8 10)) with false
    by (symmetry; apply Z.ltb_ge; change (asEuint8 10) with 10; lia).
  reflexivity.
Qed.

Lemma applyPaymentHistoryBonus_none (score payment : Z) :
  payment <= 7 -> _applyPaymentHistoryBonus score payment = score.
Proof.
  intros Hpayment. unfold _applyPaymentHistoryBonus. cbv zeta.
  replace (FHE.gt payment (asEuint8 7)) with false
    by (symmetry; apply Z.ltb_ge; change (asEuint8 7) with 7; lia).
  replace (FHE.eq payment (asEuint8 10)) with false
    by (symmetry; apply Z.eqb_neq; change (asEuint8 10) with 10; lia).
  reflexivity.
Qed.

Lemma applyIncomeBonus_none (score income : Z) :
  income <= 5000 -> _applyIncomeBonus score income = score.
Proof.
  intros Hincome. unfold _applyIncomeBonus. cbv zeta.
  replace (FHE.gt income (asEuint32 5000)) with false
    by (symmetry; apply Z.ltb_ge; change (asEuint32 5000) with 5000; lia).
  replace (FHE.gt income (asEuint32 10000)) with false
    by (symmetry; apply Z.ltb_ge; change (asEuint32 10000) with 10000; lia).
  reflexivity.
Qed.

(** Every penalty but possibly the one at 50000 applies to a debt above
    20000 that is more than twice the income: from 3 the accumulator
    wraps. *)
Lemma applyDebtPenalty_wraps (debt income : Z) :
  0 <= income <= 5000 -> 20000 < debt -> 2 * income < debt ->
  _applyDebtPenalty 3 debt income = 255 \/ _applyDebtPenalty 3 debt income = 254.
Proof.
  intros Hincome Hdebt Hdouble. unfold _applyDebtPenalty. cbv zeta.
  rewrite double_income by lia.
  replace (FHE.gt debt (asEuint32 20000)) with true
    by (symmetry; apply Z.ltb_lt; change (asEuint32 20000) with 20000; lia).
  replace (FHE.gt debt income) with true by (symmetry; apply Z.ltb_lt; lia).
  replace (FHE.gt debt (2 * income)) with true
    by (symmetry; apply Z.ltb_lt; lia).
  destruct (FHE.gt debt (asEuint32 50000)); [right|left]; reflexivity.
Qed.

(** The weakest profiles get the top score: with no bonus earned (age at
    most 25, history at most 5, payment score at most 7, income at most
    5000), a debt above 20000 that is more than twice the income drives
    the 8-bit accumulator below zero, where it wraps to 254 or 255, and
    the stored result is score 5 with the loan approved. *)
Theorem heavy_debt_without_bonus_scores_5 (data : CreditData) :
  encryptedAge data <= 25 ->
  encryptedCreditHistory data <= 5 ->
  encryptedPaymentHistory data <= 7 ->
  0 <= encryptedIncome data <= 5000 ->
  20000 < encryptedDebt data ->
  2 * encryptedIncome data < encryptedDebt data ->
  254 <= runningScore data <= 255 /\
  scoreAndApproval data = (5, true).
Proof.
  intros Hage Hhistory Hpayment Hincome Hdebt Hdouble.
  assert (Hrunning : runningScore data = 255 \/ runningScore data = 254).
  { unfold runningScore, _calculateBaseScore. cbv zeta.
    change (asEuint8 FAIR_SCORE) with 3.
    rewrite applyAgeBonus_none, applyCreditHistoryBonus_none,
      applyPaymentHistoryBonus_none, applyIncomeBonus_none by lia.
    by apply applyDebtPenalty_wraps. }
  unfold scoreAndApproval.
  destruct Hrunning as [-> | ->]; split; first [lia | reflexivity].
Qed.

Lemma heavy_debt_without_bonus_scores_5_witness :
  254 <= runningScore (mkCreditData 3000 25000 22 1 4 true 0) <= 255 /\
  scoreAndApproval (mkCreditData 3000 25000 22 1 4 true 0) = (5, true).
Proof.
  apply (heavy_debt_without_bonus_scores_5
           (mkCreditData 3000 25000 22 1 4 true 0)); cbn; lia.
Defined.

End ScoringFurther.

(* ===================================================================== *)
(** * Part X.  Further properties of the transaction pipeline             *)
(* ===================================================================== *)

Section PipelineFurther.

Import TransactionPipeline PipelineScenario.

(** ** Bounds on the retry loop *)

Lemma attemptLoop_sleeps (world : Z -> AttemptWorld) (retries : Z) (fuel : nat) :
  forall (attempt : Z) (lastError : option JsError),
    0 <= attempt ->
    Forall (fun ms => ms = 1000)
      (sleepsOf (fst (attemptLoop world retries fuel attempt lastError))) /\
    Z.of_nat (length (sleepsOf
                        (fst (attemptLoop world retries fuel attempt lastError))))
      <= Z.max 0 (retries - Z.max attempt 1 + 1).
Proof.
  induction fuel as [|fuel IH]; intros attempt lastError Hpos.
  { cbn. split; [constructor|lia]. }
  cbn [attemptLoop].
  destruct (attempt <=? retries) eqn:Hle; [|cbn; split; [constructor|lia]].
  apply Z.leb_le in Hle.
  pose proof (runAttempt_never_sleeps (world attempt)) as Hquiet.
  assert (Hdelay : Forall (fun ms => ms = 1000) (sleepsOf (retryDelay attempt))
                   /\ Z.of_nat (length (sleepsOf (retryDelay attempt)))
                      = (if 0 <? attempt then 1 else 0)).
  { unfold retryDelay. destruct (0 <? attempt); cbn; split;
      repeat constructor. }
  destruct Hdelay as [Hd1 Hd2].
  assert (Hbranch : (0 <? attempt) = true /\ 1 <= attempt
                    \/ (0 <? attempt) = false /\ attempt = 0).
  { destruct (0 <? attempt) eqn:H0; [left|right]; split; try reflexivity.
    - apply Z.ltb_lt in H0. lia.
    - apply Z.ltb_ge in H0. lia. }
  destruct (runAttempt (world attempt)) as [events [error|receipt]];
    cbn [fst] in Hquiet.
  - destruct (isUserCancellation error).
    { cbn [fst]. rewrite sleepsOf_app, Hquiet, app_nil_r.
      split; [exact Hd1|]. rewrite Hd2. destruct Hbranch as [[-> ?]|[-> ?]]; lia. }
    destruct (attempt =? retries).
    { cbn [fst]. rewrite sleepsOf_app, Hquiet, app_nil_r.
      split; [exact Hd1|]. rewrite Hd2. destruct Hbranch as [[-> ?]|[-> ?]]; lia. }
    specialize (IH (attempt + 1) (Some error) ltac:(lia)).
    destruct (attemptLoop world retries fuel (attempt + 1) (Some error))
      as [later exit].
    cbn [fst] in *. destruct IH as [IH1 IH2].
    rewrite !sleepsOf_app, Hquiet, app_nil_l. split.
    + by apply Forall_app.
    + rewrite length_app, Nat2Z.inj_add, Hd2.
      destruct Hbranch as [[-> ?]|[-> ?]]; lia.
  - cbn [fst]. rewrite sleepsOf_app, Hquiet, app_nil_r.
    split; [exact Hd1|]. rewrite Hd2. destruct Hbranch as [[-> ?]|[-> ?]]; lia.
Qed.

(** Whatever the provider and the contract answer, one call waits at most
    [retries] times, each time for 1000 ms; with a negative [retries] it
    never waits. *)
Theorem waits_are_bounded (world : Z -> AttemptWorld) (options : Options) :
  Forall (fun ms => ms = 1000)
    (sleepsOf (fst (executeTransaction world options))) /\
  Z.of_nat (length (sleepsOf (fst (executeTransaction world options))))
    <= Z.max 0 (default 1 (opt_retries options)).
Proof.
  unfold executeTransaction.
  pose proof (attemptLoop_sleeps world (default 1 (opt_retries options))
                (S (Z.to_nat (default 1 (opt_retries options) + 1))) 0 None
                ltac:(lia)) as [Hall Hcount].
  destruct (attemptLoop world (default 1 (opt_retries options))
              (S (Z.to_nat (default 1 (opt_retries options) + 1))) 0 None)
    as [events [receipt|[lastError|]|]]; cbn [fst] in *.
  - split; [exact Hall|lia].
  - rewrite sleepsOf_app. cbn. rewrite app_nil_r. split; [exact Hall|lia].
  - split; [exact Hall|lia].
  - split; [exact Hall|lia].
Qed.

(** With a negative [retries] option the loop body never runs: nothing is
    estimated, sent or reported, and the call fails while reading the
    message of an error that does not exist. *)
Theorem negative_retries_make_no_attempt (world : Z -> AttemptWorld)
    (confirmations timeout : option Z) (retries : Z) :
  retries < 0 ->
  executeTransaction world (mkOptions confirmations timeout (Some retries))
  = ([], ThrownNullDereference).
Proof.
  intros Hneg. unfold executeTransaction. cbn [opt_retries].
  change (default 1 (Some retries)) with retries. cbn [attemptLoop].
  replace (0 <=? retries) with false by (symmetry; apply Z.leb_gt; lia).
  reflexivity.
Qed.

Lemma negative_retries_make_no_attempt_witness :
  executeTransaction (fun _ => healthy) (mkOptions None None (Some (-1)))
  = ([], ThrownNullDereference).
Proof.
  apply (negative_retries_make_no_attempt (fun _ => healthy) None None (-1)).
  lia.
Defined.

(** ** The last report and the outcome *)

Lemma runAttempt_receipt_report (w : AttemptWorld) (events : list Event)
    (receipt : TransactionReceipt) :
  runAttempt w = (events, inr receipt) ->
  exists txHash : string,
    last events
    = Some (StatusUpdate
              (mkStatus (Some txHash)
                 (if decide (rc_status receipt = Some 1) then confirmed else failed)
                 1 (Some (rc_gasUsed receipt))
                 (orUndefined (rc_gasPrice receipt))
                 (Some (rc_blockNumber receipt)) None)).
Proof.
  unfold runAttempt.
  destruct (sendTransaction w (txOptionsFor (estimateContractCall w)))
    as [error|txHash]; [discriminate|].
  unfold trackTransaction.
  destruct (waitForTransaction w txHash 1) as [error|[found|]];
    intros [= <- Hreceipt]; try discriminate.
  subst found. exists txHash. reflexivity.
Qed.

Lemma attemptLoop_receipt_report (world : Z -> AttemptWorld) (retries : Z)
    (fuel : nat) :
  forall (attempt : Z) (lastError : option JsError) (events : list Event)
         (receipt : TransactionReceipt),
    attemptLoop world retries fuel attempt lastError
      = (events, LoopReturned receipt) ->
    exists txHash : string,
      last events
      = Some (StatusUpdate
                (mkStatus (Some txHash)
                   (if decide (rc_status receipt = Some 1)
                    then confirmed else failed)
                   1 (Some (rc_gasUsed receipt))
                   (orUndefined (rc_gasPrice receipt))
                   (Some (rc_blockNumber receipt)) None)).
Proof.
  induction fuel as [|fuel IH]; intros attempt lastError events receipt;
    [discriminate|].
  cbn [attemptLoop].
  destruct (attempt <=? retries); [|discriminate].
  destruct (runAttempt (world attempt)) as [tried [error|found]] eqn:Hrun.
  - destruct (isUserCancellation error); [discriminate|].
    destruct (attempt =? retries); [discriminate|].
    destruct (attemptLoop world retries fuel (attempt + 1) (Some error))
      as [later exit] eqn:Hlater.
    intros [= <- ->].
    destruct (IH _ _ _ _ Hlater) as (txHash & Hlast).
    exists txHash. rewrite app_assoc. by apply last_app_nonempty.
  - intros [= <- <-].
    destruct (runAttempt_receipt_report _ _ _ Hrun) as (txHash & Hlast).
    exists txHash. by apply last_app_nonempty.
Qed.

(** The loop is left without any error only when it never ran. *)
Lemma attemptLoop_left_empty (world : Z -> AttemptWorld) (retries : Z)
    (fuel : nat) :
  forall (attempt : Z) (lastError : option JsError) (events : list Event),
    attemptLoop world retries fuel attempt lastError = (events, LoopLeft None) ->
    lastError = None /\ retries < attempt /\ events = [].
Proof.
  induction fuel as [|fuel IH]; intros attempt lastError events; [discriminate|].
  cbn [attemptLoop].
  destruct (attempt <=? retries) eqn:Hle.
  - destruct (runAttempt (world attempt)) as [tried [error|found]];
      [|discriminate].
    destruct (isUserCancellation error); [discriminate|].
    destruct (attempt =? retries); [discriminate|].
    destruct (attemptLoop world retries fuel (attempt + 1) (Some error))
      as [later exit] eqn:Hlater.
    intros [= _ ->]. destruct (IH _ _ _ Hlater) as [Hnone _]. discriminate.
  - intros [= <- ->]. apply Z.leb_gt in Hle. by repeat split.
Qed.

(** The last progress report tells the outcome.  When the call throws the
    error it builds itself, the last report is Failed without hash; the
    thrown error has no code and carries the reported message, or the
    empty message when the report carries none (the last error had no
    message and no known code).  When the call fails on the missing last
    error instead, [retries] is negative and nothing was reported at all.
    When the call returns a receipt, the last report is Confirmed if the
    receipt status is 1 and Failed otherwise: a transaction that was mined
    but reverted is returned to the caller like a success, without a
    throw and without a retry. *)
Theorem last_report_tells_outcome (world : Z -> AttemptWorld)
    (options : Options) :
  (forall error : JsError,
     snd (executeTransaction world options) = Thrown error ->
     exists reported : option string,
       last (fst (executeTransaction world options))
       = Some (StatusUpdate (mkStatus None failed 0 None None None reported)) /\
       error = mkError None (Some (default EmptyString reported))) /\
  (snd (executeTransaction world options) = ThrownNullDereference ->
   default 1 (opt_retries options) < 0 /\
   fst (executeTransaction world options) = []) /\
  (forall receipt : TransactionReceipt,
     snd (executeTransaction world options) = Returned receipt ->
     exists txHash : string,
       last (fst (executeTransaction world options))
       = Some (StatusUpdate
                 (mkStatus (Some txHash)
                    (if decide (rc_status receipt = Some 1)
                     then confirmed else failed)
                    1 (Some (rc_gasUsed receipt))
                    (orUndefined (rc_gasPrice receipt))
                    (Some (rc_blockNumber receipt)) None))).
Proof.
  unfold executeTransaction.
  pose proof (attemptLoop_receipt_report world (default 1 (opt_retries options))
                (S (Z.to_nat (default 1 (opt_retries options) + 1))) 0 None)
    as Hloop.
  pose proof (attemptLoop_left_empty world (default 1 (opt_retries options))
                (S (Z.to_nat (default 1 (opt_retries options) + 1))) 0 None)
    as Hleft.
  destruct (attemptLoop world (default 1 (opt_retries options))
              (S (Z.to_nat (default 1 (opt_retries options) + 1))) 0 None)
    as [events [found|[lastError|]|]]; cbn [fst snd];
    (split; [|split]); try (intros ? [=]; fail); try (intros [=]; fail).
  - intros receipt [= <-]. by apply Hloop.
  - intros error [= <-]. exists (userMessageOf lastError).
    split; [by rewrite last_snoc|reflexivity].
  - intros _. destruct (Hleft events eq_refl) as (_ & Hneg & ->).
    by split.
Qed.

Lemma last_report_tells_outcome_witness :
  (exists reported : option string,
     last (fst (executeTransaction (fun _ => failsSilently) noOptions))
     = Some (StatusUpdate (mkStatus None failed 0 None None None reported)) /\
     mkError None (Some EmptyString)
     = mkError None (Some (default EmptyString reported))) /\
  (default 1 (opt_retries (mkOptions None None (Some (-1)))) < 0 /\
   fst (executeTransaction (fun _ => healthy) (mkOptions None None (Some (-1))))
   = []) /\
  (exists txHash : string,
     last (fst (executeTransaction (fun _ => revertsOnChain) noOptions))
     = Some (StatusUpdate
               (mkStatus (Some txHash) failed 1 (Some 30000) (Some (gwei 3))
                  (Some 43) None))).
Proof.
  split; [|split].
  - exact (proj1 (last_report_tells_outcome (fun _ => failsSilently) noOptions)
             (mkError None (Some EmptyString)) eq_refl).
  - exact (proj1 (proj2 (last_report_tells_outcome (fun _ => healthy)
                           (mkOptions None None (Some (-1))))) eq_refl).
  - exact (proj2 (proj2 (last_report_tells_outcome (fun _ => revertsOnChain)
                           noOptions))
             revertedReceipt eq_refl).
Defined.

(** ** How the transaction is priced *)

(** The price fields of the submitted transaction.  When the estimator
    falls back to its defaults the transaction is priced EIP-1559 style at
    25 gwei with a 2 gwei tip.  Otherwise: if the provider reports a
    priority fee, EIP-1559 pricing is used and the legacy price is left
    out; if it reports none, only a legacy price is sent, namely the
    provider's gas price, or 20 gwei when the provider reports no price
    at all; and when it reports a max fee but neither a gas price nor a
    priority fee, the transaction is sent with no price field.  Legacy
    and EIP-1559 fields are never sent together. *)
Theorem submitted_pricing (w : AttemptWorld) :
  (forall (feeData : FeeData) (estimate : Z),
     getFeeData w = inr feeData -> estimateOrFallback w = inr estimate ->
     (forall price : Z, fee_gasPrice feeData = Some price -> 0 <= price) ->
     submittedOptions w
     = if truthy (fee_maxPriorityFeePerGas feeData) then
         mkTxOptions ((estimate * 150) ÷ 100) None
           (Some (orElse (fee_maxFeePerGas feeData)
                    (orElse (fee_gasPrice feeData) (gwei 20))))
           (fee_maxPriorityFeePerGas feeData)
       else if truthy (fee_gasPrice feeData) then
         mkTxOptions ((estimate * 150) ÷ 100) (fee_gasPrice feeData) None None
       else if truthy (fee_maxFeePerGas feeData) then
         mkTxOptions ((estimate * 150) ÷ 100) None None None
       else
         mkTxOptions ((estimate * 150) ÷ 100) (Some (gwei 20)) None None) /\
  (estimateContractCall w = defaultGasEstimate ->
   submittedOptions w = mkTxOptions 400000 None (Some (gwei 25)) (Some (gwei 2))) /\
  (txo_gasPrice (submittedOptions w) = None
   \/ (txo_maxFeePerGas (submittedOptions w) = None
       /\ txo_maxPriorityFeePerGas (submittedOptions w) = None)).
Proof.
  split; [|split].
  - intros [gasPrice0 maxFee0 priority0] estimate Hfee Hest Hpos.
    unfold submittedOptions, estimateContractCall. rewrite Hfee, Hest.
    cbn [fee_gasPrice fee_maxFeePerGas fee_maxPriorityFeePerGas] in *.
    unfold txOptionsFor.
    cbn [maxFeePerGas maxPriorityFeePerGas gasPrice gasLimit].
    change (gwei 20) with 20000000000.
    destruct gasPrice0 as [price|]; destruct maxFee0 as [maxFee|];
      destruct priority0 as [priority|];
      try (specialize (Hpos price eq_refl));
      unfold orElse, truthy, orUndefined, truthy;
      repeat (match goal with
              | |- context [?a =? 0] => destruct (Z.eqb_spec a 0); subst
              | |- context [0 <? ?a] => destruct (Z.ltb_spec 0 a)
              end; cbn [negb andb orb]);
      first [reflexivity | lia | congruence].
  - intros Hdefault. unfold submittedOptions. rewrite Hdefault. reflexivity.
  - unfold submittedOptions, txOptionsFor.
    destruct (truthy (maxFeePerGas (estimateContractCall w))
              && truthy (maxPriorityFeePerGas (estimateContractCall w)));
      [by left|].
    destruct (negb (gasPrice (estimateContractCall w) =? 0)); by right.
Qed.

Lemma submitted_pricing_witness :
  submittedOptions legacyFees = mkTxOptions 150000 (Some (gwei 3)) None None.
Proof.
  refine (proj1 (submitted_pricing legacyFees)
            (mkFeeData (Some (gwei 3)) None None) 100000 eq_refl eq_refl _).
  intros price [= <-]. vm_compute. discriminate.
Defined.

End PipelineFurther.

(* ===================================================================== *)
(** * Part XI.  Properties of the client-side encryption helpers          *)
(* ===================================================================== *)

Section FheClientProperties.

Import TransactionPipeline FheClient.

(** ** Initialisation *)

(** [initializeFHE] always leaves an instance installed and never fails.
    Once an instance is installed, later calls return it without asking
    the library again; in particular the stand-in installed after a failed
    [createInstance] stays in place, even if the library would now
    succeed, until [resetFHE] is called. *)
Theorem initialisation_is_sticky (fhevmInstance : option FhevmInstance)
    (first second : JsError + FhevmInstance) :
  let '(installed, instance) := initializeFHE first fhevmInstance in
  installed = Some instance /\
  isInitialized installed = true /\
  initializeFHE second installed = (installed, instance) /\
  (forall (error : JsError) (real : FhevmInstance),
     fhevmInstance = None -> first = inl error ->
     instance = mockInstance /\
     initializeFHE (inr real) installed = (Some mockInstance, mockInstance) /\
     initializeFHE (inr real) (resetFHE installed) = (Some real, real)).
Proof.
  unfold initializeFHE.
  destruct fhevmInstance as [existing|]; [|destruct first as [error|created]];
    repeat split; try discriminate.
  all: intros error' real _ [= _]; repeat split; reflexivity.
Qed.

Lemma initialisation_is_sticky_witness :
  mockInstance = mockInstance /\
  initializeFHE (inr (mkInstance (fun _ => inr []) (fun _ => inr [])))
    (Some mockInstance) = (Some mockInstance, mockInstance) /\
  initializeFHE (inr (mkInstance (fun _ => inr []) (fun _ => inr [])))
    (resetFHE (Some mockInstance))
  = (Some (mkInstance (fun _ => inr []) (fun _ => inr [])),
     mkInstance (fun _ => inr []) (fun _ => inr [])).
Proof.
  exact (proj2 (proj2 (proj2
           (initialisation_is_sticky None
              (inl (mkError None (Some "KMS unreachable")))
              (inl (mkError None (Some "KMS unreachable"))))))
           (mkError None (Some "KMS unreachable"))
           (mkInstance (fun _ => inr []) (fun _ => inr []))
           eq_refl eq_refl).
Defined.

(** ** Rendering as bytes32 *)

Lemma hexDigits_distinct :
  NoDup ["0"; "1"; "2"; "3"; "4"; "5"; "6"; "7"; "8"; "9";
         "a"; "b"; "c"; "d"; "e"; "f"]%char.
Proof. apply (bool_decide_unpack _). vm_compute. reflexivity. Qed.

Lemma hexDigit_inj (a b : Z) :
  0 <= a < 16 -> 0 <= b < 16 -> hexDigit a = hexDigit b -> a = b.
Proof.
  intros Ha Hb Hsame. unfold hexDigit in Hsame.
  apply (proj1 (List.NoDup_nth _ _)
           (proj1 (NoDup_ListNoDup _) hexDigits_distinct)) in Hsame;
    cbn [length]; lia.
Qed.

(** A byte is rendered as its two hexadecimal digits. *)
Lemma render_byte (b : Z) :
  0 <= b < 256 ->
  padStart2 (toString16 b)
  = String (hexDigit (b / 16)) (String (hexDigit (b mod 16)) EmptyString).
Proof.
  intros Hb. unfold toString16.
  destruct (b <? 16) eqn:Hsmall.
  - apply Z.ltb_lt in Hsmall. cbn.
    rewrite Z.div_small, Z.mod_small by lia. reflexivity.
  - reflexivity.
Qed.

Lemma render_byte_inj (a b : Z) :
  0 <= a < 256 -> 0 <= b < 256 ->
  padStart2 (toString16 a) = padStart2 (toString16 b) -> a = b.
Proof.
  intros Ha Hb. rewrite !render_byte by assumption. intros [= Hhigh Hlow].
  apply hexDigit_inj in Hhigh;
    [|split; [apply Z.div_pos; lia | apply Z.div_lt_upper_bound; lia]
     |split; [apply Z.div_pos; lia | apply Z.div_lt_upper_bound; lia]].
  apply hexDigit_inj in Hlow; [|apply Z.mod_pos_bound; lia
                               |apply Z.mod_pos_bound; lia].
  rewrite (Z.div_mod a 16), (Z.div_mod b 16) by lia. congruence.
Qed.

Lemma append_two (c d : ascii) (rest : string) :
  String.append (String c (String d EmptyString)) rest
  = String c (String d rest).
Proof. reflexivity. Qed.


Lemma render_bytes_inj (xs : list Z) :
  forall ys : list Z,
    validBytes xs -> validBytes ys -> length xs = length ys ->
    joinStrings (map (fun b => padStart2 (toString16 b)) xs)
    = joinStrings (map (fun b => padStart2 (toString16 b)) ys) ->
    xs = ys.
Proof.
  induction xs as [|x xs IH]; intros [|y ys] Hxs Hys Hlen Heq;
    try discriminate; [reflexivity|].
  apply Forall_cons in Hxs as [Hx Hxs]. apply Forall_cons in Hys as [Hy Hys].
  cbn [map joinStrings] in Heq.
  pose proof (render_byte x Hx) as Hrx. pose proof (render_byte y Hy) as Hry.
  assert (Hhead : padStart2 (toString16 x) = padStart2 (toString16 y)
                  /\ joinStrings (map (fun b => padStart2 (toString16 b)) xs)
                     = joinStrings (map (fun b => padStart2 (toString16 b)) ys)).
  { rewrite Hrx, Hry in Heq |- *. rewrite !append_two in Heq.
    injection Heq as H1 H2 H3. by rewrite H1, H2. }
  destruct Hhead as [Hhead Htail].
  f_equal.
  - by apply render_byte_inj.
  - apply IH; try assumption. by injection Hlen.
Qed.

Lemma paddedBytes_length (encrypted : list Z) :
  length (paddedBytes encrypted) = 32%nat.
Proof.
  unfold paddedBytes. rewrite length_app, length_replicate, length_take. lia.
Qed.

Lemma paddedBytes_valid (encrypted : list Z) :
  validBytes encrypted -> validBytes (paddedBytes encrypted).
Proof.
  intros Hvalid. unfold paddedBytes, validBytes. apply Forall_app. split.
  - by apply Forall_take.
  - apply Forall_replicate. lia.
Qed.

Lemma encryptedToBytes32_inj (xs ys : list Z) :
  validBytes xs -> validBytes ys ->
  encryptedToBytes32 xs = encryptedToBytes32 ys ->
  paddedBytes xs = paddedBytes ys.
Proof.
  intros Hxs Hys. unfold encryptedToBytes32.
  change "0x" with (String "0" (String "x" EmptyString)).
  rewrite !append_two. intros [= Heq].
  apply render_bytes_inj; try (by apply paddedBytes_valid); [|exact Heq].
  by rewrite !paddedBytes_length.
Qed.



(** ** The stand-in encryption *)

Lemma littleEndian32_value (v : Z) :
  0 <= v < 2 ^ 32 ->
  v = v mod 256 + 2 ^ 8 * ((v / 2 ^ 8) mod 256)
      + 2 ^ 16 * ((v / 2 ^ 16) mod 256) + 2 ^ 24 * ((v / 2 ^ 24) mod 256).
Proof.
  intros Hv.
  change (2 ^ 16) with (2 ^ 8 * 2 ^ 8).
  change (2 ^ 24) with (2 ^ 8 * 2 ^ 8 * 2 ^ 8).
  rewrite <- !Z.div_div by lia.
  change (2 ^ 8) with 256.
  pose proof (Z.div_mod v 256 ltac:(lia)) as H0.
  pose proof (Z.div_mod (v / 256) 256 ltac:(lia)) as H1.
  pose proof (Z.div_mod (v / 256 / 256) 256 ltac:(lia)) as H2.
  assert (H3 : 0 <= v / 256 / 256 / 256 < 256).
  { split.
    - repeat apply Z.div_pos; lia.
    - repeat (apply Z.div_lt_upper_bound; [lia|]). cbn in *. lia. }
  rewrite (Z.mod_small (v / 256 / 256 / 256)) by exact H3.
  lia.
Qed.

Lemma mockEncrypt32_valid (v : Z) : validBytes (mockEncrypt32 v).
Proof.
  unfold mockEncrypt32, littleEndian32, validBytes. apply Forall_app. split.
  - repeat constructor; apply Z.mod_pos_bound; lia.
  - apply Forall_replicate. lia.
Qed.

(** The stand-in installed after a failed [createInstance] does not hide
    anything.  With it [encryptCreditData] never fails, and each field is
    the plain value written out in hexadecimal: a 32-bit field is its four
    little-endian bytes followed by zeros, so different incomes or debts
    below 2^32 always give different strings, while an 8-bit field keeps
    only the value modulo 256, so two credit histories 256 apart are
    indistinguishable. *)
Theorem mock_encryption_is_plain (error : JsError) (data : PlainCreditData) :
  snd (encryptCreditData (inl error) None data)
  = inr (mkEncrypted
           (encryptedToBytes32 (mockEncrypt32 (plain_income data)))
           (encryptedToBytes32 (mockEncrypt32 (plain_debt data)))
           (encryptedToBytes32 (mockEncrypt8 (plain_age data)))
           (encryptedToBytes32 (mockEncrypt8 (plain_creditHistory data)))
           (encryptedToBytes32 (mockEncrypt8 (plain_paymentHistory data)))) /\
  (forall v1 v2 : Z,
     0 <= v1 < 2 ^ 32 -> 0 <= v2 < 2 ^ 32 ->
     encryptedToBytes32 (mockEncrypt32 v1) = encryptedToBytes32 (mockEncrypt32 v2) ->
     v1 = v2) /\
  (forall v : Z,
     encryptedToBytes32 (mockEncrypt8 (v + 256))
     = encryptedToBytes32 (mockEncrypt8 v)).
Proof.
  split; [reflexivity|]. split.
  - intros v1 v2 H1 H2 Heq.
    apply encryptedToBytes32_inj in Heq; try apply mockEncrypt32_valid.
    unfold paddedBytes, mockEncrypt32, littleEndian32 in Heq.
    rewrite !(Z.mod_small v1 (2 ^ 32)), !(Z.mod_small v2 (2 ^ 32)) in Heq by lia.
    cbn [app take replicate length Nat.sub] in Heq.
    injection Heq as E0 E1 E2 E3.
    rewrite (littleEndian32_value v1 H1), (littleEndian32_value v2 H2).
    congruence.
  - intros v. unfold mockEncrypt8.
    replace (v + 256) with (v + 1 * 256) by lia.
    by rewrite Z.mod_add by lia.
Qed.

Lemma mock_encryption_is_plain_witness :
  (3000 : Z) = 3000 /\
  encryptedToBytes32 (mockEncrypt8 (44 + 256))
  = encryptedToBytes32 (mockEncrypt8 44).
Proof.
  split.
  - refine (proj1 (proj2 (mock_encryption_is_plain
                            (mkError None (Some "KMS unreachable"))
                            (mkPlain 3000 25000 22 1 4)))
              3000 3000 _ _ eq_refl); lia.
  - exact (proj2 (proj2 (mock_encryption_is_plain
                           (mkError None (Some "KMS unreachable"))
                           (mkPlain 3000 25000 22 1 4))) 44).
Defined.

End FheClientProperties.

(* ===================================================================== *)
(** * Part XII.  Properties of the form validation and of the page        *)
(* ===================================================================== *)

Section AppProperties.

Import FheClient App Scenario FormScenario.

(** ** Validation *)

Lemma parseInt_empty : parseInt EmptyString = None.
Proof. reflexivity. Qed.

Lemma parsed_is_not_empty (s : string) (n : JsNumber) :
  parseInt s = Some n -> isEmpty s = false.
Proof. destruct s; [discriminate|reflexivity]. Qed.

Lemma roundToDouble_small (n : Z) :
  Z.abs n < 2 ^ 53 -> roundToDouble n = Finite n.
Proof.
  intros Hsmall. unfold roundToDouble.
  by replace (Z.abs n <? 2 ^ 53) with true by (symmetry; apply Z.ltb_lt; lia).
Qed.

(** The numbers let through, in closed form: four of them are finite and
    within limits, the credit history is just not negative. *)
Lemma validateCreditData_encrypts (connected : bool)
    (creditData : CreditDataForm) (balanceIsZero : bool)
    (income' debt' age' history' payment' : JsNumber) :
  validateCreditData connected creditData balanceIsZero
    = Encrypt income' debt' age' history' payment'
  <-> connected = true /\ balanceIsZero = false /\
      parseInt (trim (income creditData)) = Some income' /\
      parseInt (trim (debt creditData)) = Some debt' /\
      parseInt (trim (age creditData)) = Some age' /\
      parseInt (trim (creditHistory creditData)) = Some history' /\
      parseInt (trim (paymentHistory creditData)) = Some payment' /\
      ltNum history' (Finite 0) = false /\
      exists i d a p : Z,
        income' = Finite i /\ debt' = Finite d /\ age' = Finite a /\
        payment' = Finite p /\
        18 <= a <= 100 /\ 1 <= p <= 10 /\ 0 < i <= 10000000 /\
        0 <= d <= i * 100.
Proof.
  unfold validateCreditData. split.
  - destruct connected; cbn [negb]; [|discriminate].
    destruct (isEmpty (trim (income creditData))
              || isEmpty (trim (debt creditData))
              || isEmpty (trim (age creditData))
              || isEmpty (trim (creditHistory creditData))
              || isEmpty (trim (paymentHistory creditData))); [discriminate|].
    destruct (parseInt (trim (income creditData))) as [i'|]; [|discriminate].
    destruct (parseInt (trim (debt creditData))) as [d'|]; [|discriminate].
    destruct (parseInt (trim (age creditData))) as [a'|]; [|discriminate].
    destruct (parseInt (trim (creditHistory creditData))) as [h'|];
      [|discriminate].
    destruct (parseInt (trim (paymentHistory creditData))) as [p'|];
      [|discriminate].
    destruct a' as [a| |]; cbn [ltNum orb]; try discriminate.
    destruct (a <? 18) eqn:A1; [discriminate|].
    destruct (100 <? a) eqn:A2; [discriminate|]. cbn [orb].
    destruct p' as [p| |]; cbn [ltNum orb]; try discriminate.
    destruct (p <? 1) eqn:P1; [discriminate|].
    destruct (10 <? p) eqn:P2; [discriminate|]. cbn [orb].
    destruct i' as [i| |]; unfold leNum; cbn [ltNum negb]; try discriminate;
      [|destruct (ltNum d' (Finite 0)); [discriminate|];
        destruct (ltNum h' (Finite 0)); discriminate].
    destruct (0 <? i) eqn:I1; cbn [negb]; [|discriminate].
    destruct d' as [d| |]; cbn [ltNum]; try discriminate.
    + destruct (d <? 0) eqn:D1; [discriminate|].
      destruct (ltNum h' (Finite 0)) eqn:H1; [discriminate|].
      destruct (10000000 <? i) eqn:I2; [discriminate|].
      apply Z.ltb_lt in I1. apply Z.ltb_ge in A1, A2, P1, P2, D1, I2.
      unfold times100. rewrite roundToDouble_small
        by (change (2 ^ 53) with 9007199254740992; lia).
      cbn [ltNum].
      destruct (i * 100 <? d) eqn:D2; [discriminate|].
      destruct balanceIsZero; [discriminate|].
      intros [= <- <- <- <- <-]. apply Z.ltb_ge in D2.
      do 8 (split; [first [reflexivity|assumption]|]).
      exists i, d, a, p. repeat split; first [reflexivity | lia].
    + destruct (ltNum h' (Finite 0)); [discriminate|].
      destruct (10000000 <? i) eqn:I2; [discriminate|].
      apply Z.ltb_lt in I1. apply Z.ltb_ge in I2.
      unfold times100. rewrite roundToDouble_small
        by (change (2 ^ 53) with 9007199254740992; lia).
      cbn [ltNum]. discriminate.
  - intros (-> & -> & Hi & Hd & Ha & Hh & Hp & Hhist
            & i & d & a & p & -> & -> & -> & -> & Hage & Hpay & Hinc & Hdebt).
    cbn [negb].
    rewrite (parsed_is_not_empty _ _ Hi), (parsed_is_not_empty _ _ Hd),
      (parsed_is_not_empty _ _ Ha), (parsed_is_not_empty _ _ Hh),
      (parsed_is_not_empty _ _ Hp). cbn [orb].
    rewrite Hi, Hd, Ha, Hh, Hp. unfold leNum, times100.
    rewrite roundToDouble_small
      by (change (2 ^ 53) with 9007199254740992; lia).
    cbn [ltNum]. rewrite Hhist.
    replace (a <? 18) with false by (symmetry; apply Z.ltb_ge; lia).
    replace (100 <? a) with false by (symmetry; apply Z.ltb_ge; lia).
    replace (p <? 1) with false by (symmetry; apply Z.ltb_ge; lia).
    replace (10 <? p) with false by (symmetry; apply Z.ltb_ge; lia).
    replace (0 <? i) with true by (symmetry; apply Z.ltb_lt; lia).
    replace (d <? 0) with false by (symmetry; apply Z.ltb_ge; lia).
    replace (10000000 <? i) with false by (symmetry; apply Z.ltb_ge; lia).
    replace (i * 100 <? d) with false by (symmetry; apply Z.ltb_ge; lia).
    reflexivity.
Qed.



(** The credit history is the one field with no upper limit.  If a form
    is accepted, it stays accepted when the credit-history text is replaced
    by any text that [parseInt] reads as a number that is not negative,
    however large and Infinity included, and the number read is what goes
    on to be encrypted as an 8-bit value.  That number is the double
    [parseInt] returns, not always the integer written.  The other four
    numbers that go on to be encrypted are finite and within their
    limits. *)
Theorem credit_history_is_unbounded (connected : bool)
    (creditData : CreditDataForm) (balanceIsZero : bool) :
  (forall (income' debt' age' history' payment' : JsNumber)
          (text : string) (years : JsNumber),
     validateCreditData connected creditData balanceIsZero
       = Encrypt income' debt' age' history' payment' ->
     parseInt (trim text) = Some years -> ltNum years (Finite 0) = false ->
     validateCreditData connected
       (mkForm (income creditData) (debt creditData) (age creditData) text
               (paymentHistory creditData))
       balanceIsZero
     = Encrypt income' debt' age' years payment') /\
  (forall (income' debt' age' history' payment' : JsNumber),
     validateCreditData connected creditData balanceIsZero
       = Encrypt income' debt' age' history' payment' ->
     (history' = PlusInfinity
      \/ exists h : Z, history' = Finite h /\ 0 <= h) /\
     exists i d a p : Z,
       income' = Finite i /\ debt' = Finite d /\ age' = Finite a /\
       payment' = Finite p /\
       1 <= i <= 10000000 /\ 0 <= d <= 100 * i /\ 18 <= a <= 100 /\
       1 <= p <= 10).
Proof.
  split.
  - intros income' debt' age' history' payment' text years Hok Htext Hyears.
    apply validateCreditData_encrypts in Hok.
    apply validateCreditData_encrypts.
    cbn [income debt age creditHistory paymentHistory].
    tauto.
  - intros income' debt' age' history' payment' Hok.
    apply validateCreditData_encrypts in Hok.
    destruct Hok as (_ & _ & _ & _ & _ & _ & _ & Hhist & i & d & a & p
                     & -> & -> & -> & -> & Hage & Hpay & Hinc & Hdebt).
    split.
    + destruct history' as [h| |]; [right|by left|discriminate].
      cbn [ltNum] in Hhist. apply Z.ltb_ge in Hhist. by exists h.
    + exists i, d, a, p. repeat split; first [reflexivity | lia].
Qed.

Lemma credit_history_is_unbounded_witness :
  validateCreditData true
    (mkForm "8000" "5000" "35" "9007199254740993" "9") false
  = Encrypt (Finite 8000) (Finite 5000) (Finite 35)
      (Finite 9007199254740992) (Finite 9) /\
  validateCreditData true (mkForm "8000" "5000" "35" (digits 310) "9") false
  = Encrypt (Finite 8000) (Finite 5000) (Finite 35) PlusInfinity (Finite 9) /\
  ((Finite 300 = PlusInfinity \/ exists h : Z, Finite 300 = Finite h /\ 0 <= h) /\
   exists i d a p : Z,
     Finite 8000 = Finite i /\ Finite 5000 = Finite d /\ Finite 35 = Finite a /\
     Finite 9 = Finite p /\
     1 <= i <= 10000000 /\ 0 <= d <= 100 * i /\ 18 <= a <= 100 /\
     1 <= p <= 10).
Proof.
  split; [|split].
  - apply (proj1 (credit_history_is_unbounded true
                    (mkForm "8000" "5000" "35" "8" "9") false)
             (Finite 8000) (Finite 5000) (Finite 35) (Finite 8) (Finite 9)
             "9007199254740993" (Finite 9007199254740992));
      vm_compute; reflexivity.
  - apply (proj1 (credit_history_is_unbounded true
                    (mkForm "8000" "5000" "35" "8" "9") false)
             (Finite 8000) (Finite 5000) (Finite 35) (Finite 8) (Finite 9)
             (digits 310) PlusInfinity);
      vm_compute; reflexivity.
  - apply (proj2 (credit_history_is_unbounded true
                    (mkForm "8000" "5000" "35" "300" "9") false)
             (Finite 8000) (Finite 5000) (Finite 35) (Finite 300) (Finite 9)).
    vm_compute. reflexivity.
Defined.

(** ** What the page offers against what the contract accepts *)

(** For a status read from the contract: a submission by the account
    succeeds exactly when the form is offered and the access-control list
    lets the contract use the five submitted handles (so a hidden form
    means the submission would revert, while an offered form does not by
    itself mean it goes through); the evaluate button is offered exactly
    when the account's own evaluation would succeed (unless the counter is
    exhausted); the approval button is offered as soon as the account is
    evaluated, and pressing it succeeds exactly when the account has also
    submitted.  The closing message of the status line is never shown. *)
Theorem page_offers_what_contract_accepts (st : Storage) (account : N)
    (time i d a c p : Z) (may : Argument -> bool) :
  succeeds (submitCreditData (mkCall account time may) i d a c p st)
    = showsForm (updateUserStatus st account)
      && mayUseAll (mkCall account time may) /\
  (totalEvaluations st < UINT256_MAX ->
   showsEvaluateButton (updateUserStatus st account)
     = succeeds (evaluateCreditScore (mkCall account time may) account st)) /\
  (showsApprovalButton (updateUserStatus st account) = true ->
   succeeds (requestLoanApproval (mkCall account time may) st)
     = hasSubmittedCreditData account st) /\
  (showsApprovalButton (updateUserStatus st account) = false ->
   succeeds (requestLoanApproval (mkCall account time may) st) = false) /\
  getStatusMessage (updateUserStatus st account)
    <> "Credit evaluation complete!".
Proof.
  split.
  { rewrite submitCreditData_cases.
    unfold showsForm, updateUserStatus, hasSubmittedCreditData.
    cbn [us_hasSubmitted sender].
    destruct (hasSubmitted (submissionOf st account)); [reflexivity|].
    destruct (mayUseAll (mkCall account time may)); reflexivity. }
  unfold showsForm, showsEvaluateButton, showsApprovalButton, updateUserStatus,
    getStatusMessage, hasSubmittedCreditData, isCreditEvaluated.
  cbn [us_hasSubmitted us_isEvaluated us_canApprove].
  open_call. cbn [sender]. rewrite N.eqb_refl. cbn [orb].
  destruct (hasSubmitted (submissionOf st account));
    destruct (isEvaluated (evaluationOf st account)); cbn;
    repeat split; try discriminate; try reflexivity.
  intros Hroom.
  destruct (scoreAndApproval (submissionOf st account)) as [score approved].
  replace (UINT256_MAX <=? totalEvaluations st) with false
    by (symmetry; apply Z.leb_gt; lia).
  reflexivity.
Qed.

Lemma page_offers_what_contract_accepts_witness :
  (showsForm (updateUserStatus deployed alice) = true /\
   succeeds (submitCreditData (mkCall alice 100 withheldDebt)
               8000 5000 35 8 9 deployed) = false) /\
  showsEvaluateButton (updateUserStatus aliceSubmitted alice)
    = succeeds (evaluateCreditScore (mkMsg alice 200) alice aliceSubmitted) /\
  succeeds (requestLoanApproval (mkMsg alice 300)
              (applyTx adminSubmitted (evaluateBy admin alice 200)))
    = hasSubmittedCreditData alice
        (applyTx adminSubmitted (evaluateBy admin alice 200)).
Proof.
  split; [|split].
  - split; [reflexivity|].
    rewrite (proj1 (page_offers_what_contract_accepts deployed alice 100
                      8000 5000 35 8 9 withheldDebt)).
    reflexivity.
  - apply (proj1 (proj2 (page_offers_what_contract_accepts aliceSubmitted
                           alice 200 0 0 0 0 0 (fun _ => true)))).
    vm_compute. reflexivity.
  - apply (proj1 (proj2 (proj2 (page_offers_what_contract_accepts
                                  (applyTx adminSubmitted
                                     (evaluateBy admin alice 200))
                                  alice 300 0 0 0 0 0 (fun _ => true))))).
    reflexivity.
Defined.

End AppProperties.
